(** * useFetchEventSource: the connection lifecycle of the hook

    A shallow embedding of [src/useFetchEventSource.ts] (and of the types of
    [src/index.ts]).  The hook keeps its state in React refs and two state
    cells; here they are the fields of one record, [Session], threaded
    explicitly through every handler.  The two browser facilities the hook
    drives, the timeout table of [window] and the exchanges started through
    [fetchEventSource] (one [AbortController] each), are fields of the same
    record, so that "a retry is scheduled" and "the exchange is aborted" are
    statements about data.

    Closures are parameters: a function of the source that reads [input],
    [config], [headers] or [rest] of the render it was created in takes that
    render as its first argument. *)

From stdpp Require Import base option list gmap strings pretty.
From Stdlib Require Import ZArith.

(** ** Values of the host language *)

(** [FetchEventSourceState] of index.ts. *)
Inductive FetchEventSourceState := CONNECTING | OPEN | CLOSED.

(** [FetchEventSourceMessage] of index.ts: [id], [event], [data] are strings
    (empty when the server sent none), [retry] is optional. *)
Record FetchEventSourceMessage := {
  ev_id : string;
  ev_event : string;
  ev_data : string;
  ev_retry : option Z
}.

(** What the hook reads of a fetch [Response]: [response.status] and
    [response.headers.get("content-type")]; [response.ok] is derived from
    the status. *)
Record Response := {
  status : Z;
  contentType : option string
}.

(** The [ok] getter of the platform: the status is in the range 200-299. *)
Definition ok (response : Response) : bool :=
  ((200 <=? status response) && (status response <=? 299))%Z.

(** Values that can be thrown and caught ([err : any]).  [JOpenError] is
    [FetchEventSourceOpenError]: an [Error] with a message and the
    [response] that caused it. *)
Inductive JsValue :=
| JUndefined
| JNull
| JBool (b : bool)
| JNumber (n : Z)
| JString (s : string)
| JError (message : string)
| JOpenError (message : string) (response : Response).

(** Truthiness, as tested by [if (err)]. *)
Definition truthy (v : JsValue) : bool :=
  match v with
  | JUndefined | JNull => false
  | JBool b => b
  | JNumber n => negb (n =? 0)%Z
  | JString s => negb (String.eqb s "")
  | JError _ | JOpenError _ _ => true
  end.

(** Truthiness of a number ([if (ev.retry)], [if (retryTimeoutId.current)])
    and of a string ([lastEventId.current && ...]). *)
Definition truthyZ (n : Z) : bool := negb (n =? 0)%Z.
Definition truthyNat (n : nat) : bool := negb (n =? 0).
Definition truthyString (s : string) : bool := negb (String.eqb s "").

(** [String.prototype.toLowerCase] on a header value.  A header value is a
    byte string, one code unit per byte; the code units with a lower-case
    form are A-Z and the Latin-1 capitals U+00C0-U+00DE except U+00D7. *)
Definition lowerCodeUnit (c : Ascii.ascii) : Ascii.ascii :=
  let n := Ascii.N_of_ascii c in
  if ((65 <=? n) && (n <=? 90))%N
     || ((192 <=? n) && (n <=? 222) && negb (n =? 215))%N
  then Ascii.ascii_of_N (n + 32) else c.

Fixpoint toLowerCase (s : string) : string :=
  match s with
  | EmptyString => EmptyString
  | String c s' => String (lowerCodeUnit c) (toLowerCase s')
  end.

(** What a retry policy ([onClose], [onError]) hands back:
    [number | false], or [undefined] when the callback is absent (or returns
    nothing). *)
Inductive RetryDecision :=
| RFalse
| RNumber (ms : Z)
| RUndefined.

(** How the promise of a caller's [onOpen] settles. *)
Inductive Settled :=
| Resolved
| Rejected (err : JsValue).

(** ** Configuration *)

(** [config.fetchRequestInit], destructured as [{ headers, ...rest }]. *)
Record RequestInit := {
  headers : option (gmap string string);
  rest : gmap string string
}.

(** [FetchEventSourceConfig] of index.ts; every field is optional.  The
    [fetch] field is never read by the hook and is left out. *)
Record FetchEventSourceConfig := {
  fetchRequestInit : option RequestInit;
  openWhenHidden : option bool;
  initiallyOpen : option bool;
  defaultRetryInterval : option Z;
  onOpen : option (Response → Settled);
  onEventMessage : option (FetchEventSourceMessage → option JsValue);
  onClose : option (unit → RetryDecision);
  onError : option (JsValue → nat → RetryDecision)
}.

(** One render of the hook: its two arguments.  [config] itself is optional
    ([config?: FetchEventSourceConfig]). *)
Record Render := {
  input : string;
  config : option FetchEventSourceConfig
}.

(** [config?.f]: [undefined] when there is no [config] or no field. *)
Definition optional {A} (f : FetchEventSourceConfig → option A) (r : Render)
  : option A :=
  match config r with
  | Some c => f c
  | None => None
  end.

(** [const DefaultRetryInterval = 1000]. *)
Definition DefaultRetryInterval : Z := 1000.

(** [const { headers, ...rest } = config?.fetchRequestInit || {}]. *)
Definition headersOf (r : Render) : option (gmap string string) :=
  match optional fetchRequestInit r with
  | Some i => headers i
  | None => None
  end.

Definition restOf (r : Render) : gmap string string :=
  match optional fetchRequestInit r with
  | Some i => rest i
  | None => ∅
  end.

(** [config?.openWhenHidden === false]. *)
Definition openWhenHiddenIsFalse (r : Render) : bool :=
  match optional openWhenHidden r with
  | Some false => true
  | _ => false
  end.

(** ** The session and its environment *)

(** The progress of one call of [fetchEventSource], as far as the callbacks
    it may still invoke are concerned. *)
Inductive Phase :=
| Fetching
| AwaitingOnOpen (response : Response)
| Streaming
| Finished.

(** One call of [fetchEventSource]: the request it was given, the render
    whose closures are its callbacks, and the state of the [AbortController]
    created for it. *)
Record Exchange := {
  ex_input : string;
  ex_headers : gmap string string;
  ex_rest : gmap string string;
  ex_render : Render;
  ex_aborted : bool;
  ex_phase : Phase
}.

(** An invocation of a caller's retry policy, with what it returned. *)
Inductive PolicyCall :=
| CalledOnError (err : JsValue) (retries : nat) (result : RetryDecision)
| CalledOnClose (result : RetryDecision).

(** The refs and state cells of the hook, followed by the environment.
    [abortController] designates an exchange by its position in
    [exchanges]; [timeouts] maps the id of every pending [window.setTimeout]
    to its delay (the callback is [open] in every call of the source);
    [policyCalls] is the history of the calls made to the caller's retry
    policies.  Intervals are integers: a [retry] field is the result of
    [parseInt], and a delay is a count of milliseconds. *)
Record Session := {
  abortController : option nat;
  lastEventId : option string;
  retryTimeoutId : option nat;
  explicitlyOpen : bool;
  errorRetries : nat;
  retryInterval : Z;
  hidden : bool;
  readyState : FetchEventSourceState;
  eventMessage : option FetchEventSourceMessage;
  exchanges : list Exchange;
  timeouts : gmap nat Z;
  nextTimeoutId : nat;
  policyCalls : list PolicyCall
}.

(** Field updates. *)
Definition set_abortController (v : option nat) (s : Session) : Session :=
  {| abortController := v; lastEventId := lastEventId s;
     retryTimeoutId := retryTimeoutId s; explicitlyOpen := explicitlyOpen s;
     errorRetries := errorRetries s; retryInterval := retryInterval s;
     hidden := hidden s; readyState := readyState s;
     eventMessage := eventMessage s; exchanges := exchanges s;
     timeouts := timeouts s; nextTimeoutId := nextTimeoutId s;
     policyCalls := policyCalls s |}.

Definition set_lastEventId (v : option string) (s : Session) : Session :=
  {| abortController := abortController s; lastEventId := v;
     retryTimeoutId := retryTimeoutId s; explicitlyOpen := explicitlyOpen s;
     errorRetries := errorRetries s; retryInterval := retryInterval s;
     hidden := hidden s; readyState := readyState s;
     eventMessage := eventMessage s; exchanges := exchanges s;
     timeouts := timeouts s; nextTimeoutId := nextTimeoutId s;
     policyCalls := policyCalls s |}.

Definition set_retryTimeoutId (v : option nat) (s : Session) : Session :=
  {| abortController := abortController s; lastEventId := lastEventId s;
     retryTimeoutId := v; explicitlyOpen := explicitlyOpen s;
     errorRetries := errorRetries s; retryInterval := retryInterval s;
     hidden := hidden s; readyState := readyState s;
     eventMessage := eventMessage s; exchanges := exchanges s;
     timeouts := timeouts s; nextTimeoutId := nextTimeoutId s;
     policyCalls := policyCalls s |}.

Definition set_explicitlyOpen (v : bool) (s : Session) : Session :=
  {| abortController := abortController s; lastEventId := lastEventId s;
     retryTimeoutId := retryTimeoutId s; explicitlyOpen := v;
     errorRetries := errorRetries s; retryInterval := retryInterval s;
     hidden := hidden s; readyState := readyState s;
     eventMessage := eventMessage s; exchanges := exchanges s;
     timeouts := timeouts s; nextTimeoutId := nextTimeoutId s;
     policyCalls := policyCalls s |}.

Definition set_errorRetries (v : nat) (s : Session) : Session :=
  {| abortController := abortController s; lastEventId := lastEventId s;
     retryTimeoutId := retryTimeoutId s; explicitlyOpen := explicitlyOpen s;
     errorRetries := v; retryInterval := retryInterval s;
     hidden := hidden s; readyState := readyState s;
     eventMessage := eventMessage s; exchanges := exchanges s;
     timeouts := timeouts s; nextTimeoutId := nextTimeoutId s;
     policyCalls := policyCalls s |}.

Definition set_retryInterval (v : Z) (s : Session) : Session :=
  {| abortController := abortController s; lastEventId := lastEventId s;
     retryTimeoutId := retryTimeoutId s; explicitlyOpen := explicitlyOpen s;
     errorRetries := errorRetries s; retryInterval := v;
     hidden := hidden s; readyState := readyState s;
     eventMessage := eventMessage s; exchanges := exchanges s;
     timeouts := timeouts s; nextTimeoutId := nextTimeoutId s;
     policyCalls := policyCalls s |}.

Definition set_hidden (v : bool) (s : Session) : Session :=
  {| abortController := abortController s; lastEventId := lastEventId s;
     retryTimeoutId := retryTimeoutId s; explicitlyOpen := explicitlyOpen s;
     errorRetries := errorRetries s; retryInterval := retryInterval s;
     hidden := v; readyState := readyState s;
     eventMessage := eventMessage s; exchanges := exchanges s;
     timeouts := timeouts s; nextTimeoutId := nextTimeoutId s;
     policyCalls := policyCalls s |}.

(** [setReadyState] of [useStateRef]: the ref is written at once, so every
    later read of [readyStateRef.current] sees the new value. *)
Definition setReadyState (v : FetchEventSourceState) (s : Session) : Session :=
  {| abortController := abortController s; lastEventId := lastEventId s;
     retryTimeoutId := retryTimeoutId s; explicitlyOpen := explicitlyOpen s;
     errorRetries := errorRetries s; retryInterval := retryInterval s;
     hidden := hidden s; readyState := v;
     eventMessage := eventMessage s; exchanges := exchanges s;
     timeouts := timeouts s; nextTimeoutId := nextTimeoutId s;
     policyCalls := policyCalls s |}.

Definition setEventMessage (v : option FetchEventSourceMessage) (s : Session)
  : Session :=
  {| abortController := abortController s; lastEventId := lastEventId s;
     retryTimeoutId := retryTimeoutId s; explicitlyOpen := explicitlyOpen s;
     errorRetries := errorRetries s; retryInterval := retryInterval s;
     hidden := hidden s; readyState := readyState s;
     eventMessage := v; exchanges := exchanges s;
     timeouts := timeouts s; nextTimeoutId := nextTimeoutId s;
     policyCalls := policyCalls s |}.

Definition set_exchanges (v : list Exchange) (s : Session) : Session :=
  {| abortController := abortController s; lastEventId := lastEventId s;
     retryTimeoutId := retryTimeoutId s; explicitlyOpen := explicitlyOpen s;
     errorRetries := errorRetries s; retryInterval := retryInterval s;
     hidden := hidden s; readyState := readyState s;
     eventMessage := eventMessage s; exchanges := v;
     timeouts := timeouts s; nextTimeoutId := nextTimeoutId s;
     policyCalls := policyCalls s |}.

Definition set_timeouts (v : gmap nat Z) (s : Session) : Session :=
  {| abortController := abortController s; lastEventId := lastEventId s;
     retryTimeoutId := retryTimeoutId s; explicitlyOpen := explicitlyOpen s;
     errorRetries := errorRetries s; retryInterval := retryInterval s;
     hidden := hidden s; readyState := readyState s;
     eventMessage := eventMessage s; exchanges := exchanges s;
     timeouts := v; nextTimeoutId := nextTimeoutId s;
     policyCalls := policyCalls s |}.

Definition set_nextTimeoutId (v : nat) (s : Session) : Session :=
  {| abortController := abortController s; lastEventId := lastEventId s;
     retryTimeoutId := retryTimeoutId s; explicitlyOpen := explicitlyOpen s;
     errorRetries := errorRetries s; retryInterval := retryInterval s;
     hidden := hidden s; readyState := readyState s;
     eventMessage := eventMessage s; exchanges := exchanges s;
     timeouts := timeouts s; nextTimeoutId := v;
     policyCalls := policyCalls s |}.

Definition set_policyCalls (v : list PolicyCall) (s : Session) : Session :=
  {| abortController := abortController s; lastEventId := lastEventId s;
     retryTimeoutId := retryTimeoutId s; explicitlyOpen := explicitlyOpen s;
     errorRetries := errorRetries s; retryInterval := retryInterval s;
     hidden := hidden s; readyState := readyState s;
     eventMessage := eventMessage s; exchanges := exchanges s;
     timeouts := timeouts s; nextTimeoutId := nextTimeoutId s;
     policyCalls := v |}.

Definition set_ex_aborted (v : bool) (e : Exchange) : Exchange :=
  {| ex_input := ex_input e; ex_headers := ex_headers e; ex_rest := ex_rest e;
     ex_render := ex_render e; ex_aborted := v; ex_phase := ex_phase e |}.

Definition set_ex_phase (v : Phase) (e : Exchange) : Exchange :=
  {| ex_input := ex_input e; ex_headers := ex_headers e; ex_rest := ex_rest e;
     ex_render := ex_render e; ex_aborted := ex_aborted e; ex_phase := v |}.

(** ** The browser calls the hook makes *)

(** [window.setTimeout(open, ms)]: a fresh id, greater than zero. *)
Definition setTimeout (ms : Z) (s : Session) : nat * Session :=
  let t := nextTimeoutId s in
  (t, set_nextTimeoutId (S t) (set_timeouts (<[t := ms]> (timeouts s)) s)).

(** [window.clearTimeout(id)]. *)
Definition clearTimeout (t : nat) (s : Session) : Session :=
  set_timeouts (delete t (timeouts s)) s.

(** [abortController.current?.abort()]. *)
Definition abort (s : Session) : Session :=
  match abortController s with
  | Some i => set_exchanges (alter (set_ex_aborted true) i (exchanges s)) s
  | None => s
  end.

(** The object literal [{ ...a, ...b }]: the properties of [a], then those
    of [b]; a key of [b] replaces the same key of [a]. *)
Definition spread (a b : gmap string string) : gmap string string := b ∪ a.

(** ** The hook *)

(** The refs as the first render creates them. *)
Definition initial (r : Render) : Session :=
  {| abortController := None;
     lastEventId := None;
     retryTimeoutId := None;
     explicitlyOpen := default true (optional initiallyOpen r);
     errorRetries := 0;
     retryInterval := default DefaultRetryInterval (optional defaultRetryInterval r);
     hidden := false;
     readyState := CLOSED;
     eventMessage := None;
     exchanges := [];
     timeouts := ∅;
     nextTimeoutId := 1;
     policyCalls := [] |}.

Definition _clearRetryTimeout (s : Session) : Session :=
  match retryTimeoutId s with
  | Some t =>
      if truthyNat t then set_retryTimeoutId None (clearTimeout t s) else s
  | None => s
  end.

Definition close (s : Session) : Session :=
  setReadyState CLOSED (_clearRetryTimeout (abort (set_explicitlyOpen false s))).

(** The first half of [_handleRetry]: which policy is consulted, and what it
    answers.  The call is recorded when a callback was there to be called. *)
Definition consultPolicy (r : Render) (err : JsValue) (s : Session)
  : RetryDecision * Session :=
  if truthy err then
    match optional onError r with
    | Some f =>
        let d := f err (errorRetries s) in
        (d, set_policyCalls (policyCalls s ++ [CalledOnError err (errorRetries s) d]) s)
    | None => (RUndefined, s)
    end
  else
    match optional onClose r with
    | Some f =>
        let d := f () in
        (d, set_policyCalls (policyCalls s ++ [CalledOnClose d]) s)
    | None => (RUndefined, s)
    end.

(** [_handleRetry(err)]; [_handleRetry()] is [_handleRetry r JUndefined]. *)
Definition _handleRetry (r : Render) (err : JsValue) (s : Session) : Session :=
  let '(d, s1) := consultPolicy r err s in
  match d with
  | RFalse => s1
  | _ =>
      let retryIntervalMs :=
        match d with RNumber ms => ms | _ => retryInterval s1 end in
      let s2 :=
        if truthy err then set_errorRetries (S (errorRetries s1)) s1 else s1 in
      let '(t, s3) := setTimeout retryIntervalMs s2 in
      set_retryTimeoutId (Some t) s3
  end.

(** [requestHeaders] of [_startStream]. *)
Definition requestHeaders (r : Render) (s : Session) : gmap string string :=
  spread
    (match lastEventId s with
     | Some i => if truthyString i then {[ "Last-Event-ID" := i ]} else ∅
     | None => ∅
     end)
    (default ∅ (headersOf r)).

(** [_startStream], up to the call of [fetchEventSource]: a new controller,
    CONNECTING, and the exchange handed to the collaborator. *)
Definition _startStream (r : Render) (s : Session) : Session :=
  let s1 := set_abortController (Some (length (exchanges s))) s in
  let s2 := setReadyState CONNECTING s1 in
  set_exchanges
    (exchanges s2 ++
       [{| ex_input := input r; ex_headers := requestHeaders r s2;
           ex_rest := restOf r; ex_render := r;
           ex_aborted := false; ex_phase := Fetching |}])
    s2.

Definition open (r : Render) (s : Session) : Session :=
  let s1 := set_explicitlyOpen true s in
  match readyState s1 with
  | CLOSED => _startStream r s1
  | _ => s1
  end.

(** The message of [FetchEventSourceOpenError]. *)
Definition openErrorMessage (response : Response) : string :=
  "Invalid Server-Sent Events response from server, Status: "
  +:+ pretty (status response)
  +:+ " Content-Type: "
  +:+ default "null" (contentType response).

(** [response.headers.get("content-type")?.toLowerCase() !== "text/event-stream"] *)
Definition contentTypeMismatch (response : Response) : bool :=
  match contentType response with
  | Some ct => negb (String.eqb (toLowerCase ct) "text/event-stream")
  | None => true
  end.

(** The [onopen] callback.  It throws ([inl]) or completes ([inr]).  Nothing
    is written before the [await]; what runs after it is [onopenResume]. *)
Definition onopenResume (s : Session) : Session :=
  set_errorRetries 0 (setReadyState OPEN s).

Definition onopen (r : Render) (response : Response) (s : Session)
  : JsValue + Session :=
  if negb (bool_decide (is_Some (optional onOpen r)))
     && (negb (ok response) || contentTypeMismatch response)
  then inl (JOpenError (openErrorMessage response) response)
  else
    match
      match optional onOpen r with
      | Some f => f response
      | None => Resolved
      end
    with
    | Rejected err => inl err
    | Resolved => inr (onopenResume s)
    end.

(** The [onmessage] callback; the second component is what the caller's
    [onEventMessage] threw, if it threw. *)
Definition onmessage (r : Render) (ev : FetchEventSourceMessage) (s : Session)
  : Session * option JsValue :=
  let s1 :=
    set_lastEventId
      (if String.eqb (ev_id ev) "" then None else Some (ev_id ev)) s in
  let s2 :=
    match ev_retry ev with
    | Some n => if truthyZ n then set_retryInterval n s1 else s1
    | None => s1
    end in
  let s3 := setEventMessage (Some ev) s2 in
  (s3, match optional onEventMessage r with
       | Some f => f ev
       | None => None
       end).

(** The [onclose] callback. *)
Definition onclose (r : Render) (s : Session) : Session :=
  _handleRetry r JUndefined (setReadyState CLOSED s).

(** The [.catch] handler on the promise of [fetchEventSource]. *)
Definition oncatch (r : Render) (err : JsValue) (s : Session) : Session :=
  _handleRetry r err (_clearRetryTimeout (setReadyState CLOSED s)).

(** The first effect.  Its condition reads [hidden], the ref object, and not
    [hidden.current]; an object is truthy. *)
Definition hiddenRefIsTruthy : bool := true.

Definition streamEffect (r : Render) (s : Session) : Session :=
  if explicitlyOpen s && negb (hiddenRefIsTruthy && openWhenHiddenIsFalse r)
  then _startStream r s
  else s.

Definition streamEffectCleanup (s : Session) : Session :=
  _clearRetryTimeout (abort s).

(** [document.visibilityState]. *)
Inductive VisibilityState := visible | hiddenState.

(** [onVisibilityChange]; [r] is the render whose [open] it calls. *)
Definition onVisibilityChange (r : Render) (v : VisibilityState) (s : Session)
  : Session :=
  let s1 :=
    set_hidden (match v with hiddenState => true | visible => false end) s in
  if hidden s1 then setReadyState CLOSED (abort s1)
  else if explicitlyOpen s1 then open r s1 else s1.

(** What the hook returns to a render that follows the session [s]
    ([UseFetchEventSourceReturn] of index.ts, without its two functions). *)
Record UseFetchEventSourceReturn := {
  ret_eventMessage : option FetchEventSourceMessage;
  ret_lastEventId : option string;
  ret_readyState : FetchEventSourceState;
  ret_retryInterval : Z
}.

Definition result (s : Session) : UseFetchEventSourceReturn :=
  {| ret_eventMessage := eventMessage s;
     ret_lastEventId := lastEventId s;
     ret_readyState := readyState s;
     ret_retryInterval := retryInterval s |}.

(** ** The session as a transition system

    What may happen to a mounted hook, one event at a time.  The guards on
    the exchange events are the contract of the stream collaborator
    ([fetchEventSource]): it calls [onopen] once a response is there, then
    [onmessage] per frame, then [onclose] when the body ends; it rejects
    (reaching the [.catch] handler) when the transport or a callback throws;
    and once the signal it was given is aborted it calls nothing and settles
    without an error.  [open] is memoised with an empty dependency list, so
    the timer, the visibility listener and the caller all run the [open] of
    the first render. *)

Record World := {
  session : Session;
  mounted : Render;
  current : Render
}.

Definition with_session (s : Session) (w : World) : World :=
  {| session := s; mounted := mounted w; current := current w |}.

(** [CallOpen], [CallClose]: the caller invokes [open()], [close()].
    [Rerender r]: the component renders with [r] and a dependency of the
    stream effect has changed, so its cleanup and then its body run.
    [VisibilityChange v]: the document fires [visibilitychange] with
    [visibilityState = v].  [TimeoutFires t]: the pending timeout [t] runs.
    The others concern exchange [i]: a response is there and [onopen] is
    called; the promise of the caller's [onOpen] settles; a frame is
    delivered; the body ends; the transport throws [err]. *)
Inductive Event :=
| CallOpen
| CallClose
| Rerender (r : Render)
| VisibilityChange (v : VisibilityState)
| TimeoutFires (t : nat)
| ResponseArrives (i : nat) (response : Response)
| OnOpenSettles (i : nat)
| MessageArrives (i : nat) (ev : FetchEventSourceMessage)
| RemoteCloses (i : nat)
| ExchangeFails (i : nat) (err : JsValue).

(** The first render, both effects run. *)
Definition mount (r : Render) : World :=
  {| session := streamEffect r (initial r); mounted := r; current := r |}.

Definition setPhase (i : nat) (p : Phase) (s : Session) : Session :=
  set_exchanges (alter (set_ex_phase p) i (exchanges s)) s.

(** The exchange [i], if the collaborator may still call back for it. *)
Definition live (i : nat) (s : Session) : option Exchange :=
  match exchanges s !! i with
  | Some e => if ex_aborted e then None else Some e
  | None => None
  end.

(** The continuation of [onopen] after its [await], for exchange [i] whose
    response was [response]: the rest of the callback runs whatever happened
    meanwhile; its outcome reaches the collaborator, which ignores it when
    the exchange was aborted. *)
Definition settleOnOpen (i : nat) (e : Exchange) (response : Response)
    (s : Session) : Session :=
  match onopen (ex_render e) response s with
  | inr s' => setPhase i (if ex_aborted e then Finished else Streaming) s'
  | inl err =>
      if ex_aborted e then setPhase i Finished s
      else oncatch (ex_render e) err (setPhase i Finished s)
  end.

Definition step (w : World) (e : Event) : option World :=
  let s := session w in
  match e with
  | CallOpen => Some (with_session (open (mounted w) s) w)
  | CallClose => Some (with_session (close s) w)
  | Rerender r =>
      Some {| session := streamEffect r (streamEffectCleanup s);
              mounted := mounted w; current := r |}
  | VisibilityChange v =>
      if openWhenHiddenIsFalse (current w)
      then Some (with_session (onVisibilityChange (mounted w) v s) w)
      else Some w
  | TimeoutFires t =>
      match timeouts s !! t with
      | Some _ => Some (with_session (open (mounted w) (clearTimeout t s)) w)
      | None => None
      end
  | ResponseArrives i response =>
      match live i s with
      | Some x =>
          match ex_phase x with
          | Fetching =>
              match optional onOpen (ex_render x) with
              | Some _ =>
                  Some (with_session (setPhase i (AwaitingOnOpen response) s) w)
              | None => Some (with_session (settleOnOpen i x response s) w)
              end
          | _ => None
          end
      | None => None
      end
  | OnOpenSettles i =>
      match exchanges s !! i with
      | Some x =>
          match ex_phase x with
          | AwaitingOnOpen response =>
              Some (with_session (settleOnOpen i x response s) w)
          | _ => None
          end
      | None => None
      end
  | MessageArrives i ev =>
      match live i s with
      | Some x =>
          match ex_phase x with
          | Streaming =>
              match onmessage (ex_render x) ev s with
              | (s', None) => Some (with_session s' w)
              | (s', Some err) =>
                  Some (with_session
                          (oncatch (ex_render x) err (setPhase i Finished s')) w)
              end
          | _ => None
          end
      | None => None
      end
  | RemoteCloses i =>
      match live i s with
      | Some x =>
          match ex_phase x with
          | Streaming =>
              Some (with_session (onclose (ex_render x) (setPhase i Finished s)) w)
          | _ => None
          end
      | None => None
      end
  | ExchangeFails i err =>
      match live i s with
      | Some x =>
          match ex_phase x with
          | Fetching | Streaming =>
              Some (with_session
                      (oncatch (ex_render x) err (setPhase i Finished s)) w)
          | _ => None
          end
      | None => None
      end
  end.

Fixpoint run (w : World) (es : list Event) : option World :=
  match es with
  | [] => Some w
  | e :: es' =>
      match step w e with
      | Some w' => run w' es'
      | None => None
      end
  end.

(** ** Notions of the specification *)

(** The caller's headers, [headers || {}]. *)
Definition callerHeaders (r : Render) : gmap string string :=
  default ∅ (headersOf r).

(** Equality of strings up to the case of the letters A-Z. *)
Definition foldCase (c : Ascii.ascii) : Ascii.ascii :=
  let n := Ascii.N_of_ascii c in
  if ((65 <=? n) && (n <=? 90))%N then Ascii.ascii_of_N (n + 32) else c.

Fixpoint equalIgnoringCase (a b : string) : bool :=
  match a, b with
  | EmptyString, EmptyString => true
  | String x a', String y b' =>
      Ascii.eqb (foldCase x) (foldCase y) && equalIgnoringCase a' b'
  | _, _ => false
  end.

(** The default validation in the words of the specification: the status
    indicates success and the content type is, case-insensitively,
    [text/event-stream]. *)
Definition acceptedByDefault (response : Response) : bool :=
  ((200 <=? status response) && (status response <=? 299))%Z
  && match contentType response with
     | Some ct => equalIgnoringCase ct "text/event-stream"
     | None => false
     end.

(** A 7-bit code unit that case folding leaves alone. *)
Definition plainCodeUnit (c : Ascii.ascii) : bool :=
  match c with
  | Ascii.Ascii _ _ _ _ _ _ _ b7 => negb b7
  end && Ascii.eqb (foldCase c) c.

Fixpoint plainString (t : string) : bool :=
  match t with
  | EmptyString => true
  | String c t' => plainCodeUnit c && plainString t'
  end.

(** ** In-flight exchanges *)

(** An exchange for which the collaborator may still call back. *)
Definition inFlight (e : Exchange) : bool :=
  negb (ex_aborted e)
  && match ex_phase e with Finished => false | _ => true end.

Definition noneInFlight (xs : list Exchange) : Prop :=
  ∀ i e, xs !! i = Some e → inFlight e = false.

(** The controller the session holds is the one of the exchange in flight,
    if there is one, and there is none while the session reads CLOSED. *)
Definition tracked (c : option nat) (st : FetchEventSourceState)
    (xs : list Exchange) : Prop :=
  (∀ i e, xs !! i = Some e → inFlight e = true → c = Some i)
  ∧ (st = CLOSED → noneInFlight xs).

Definition wellTracked (s : Session) : Prop :=
  tracked (abortController s) (readyState s) (exchanges s).

(** A session at rest: the caller does not want it open, no timeout is
    pending and no exchange is in flight. *)
Definition idle (s : Session) : Prop :=
  explicitlyOpen s = false
  ∧ timeouts s = ∅
  ∧ noneInFlight (exchanges s).

(** Every pending timeout is the one the session tracks. *)
Definition onlyTrackedTimeout (s : Session) : Prop :=
  ∀ t ms, timeouts s !! t = Some ms → retryTimeoutId s = Some t ∧ t ≠ 0.

(** ** Notions for the events of a session *)

(** The timeout ids a session holds: every pending id, and the tracked one,
    is positive and below the next id to be handed out. *)
Definition timersWellFormed (s : Session) : Prop :=
  (∀ t ms, timeouts s !! t = Some ms → 1 ≤ t < nextTimeoutId s)
  ∧ (∀ t, retryTimeoutId s = Some t → 1 ≤ t < nextTimeoutId s)
  ∧ 1 ≤ nextTimeoutId s.

(** [x'] is the exchange [x] later on: the same request and callbacks;
    aborted if [x] was, finished if [x] was. *)
Definition sameRequest (x x' : Exchange) : Prop :=
  ex_input x' = ex_input x
  ∧ ex_headers x' = ex_headers x
  ∧ ex_rest x' = ex_rest x
  ∧ ex_render x' = ex_render x
  ∧ (ex_aborted x = true → ex_aborted x' = true)
  ∧ (ex_phase x = Finished → ex_phase x' = Finished).

Definition kept (xs xs' : list Exchange) : Prop :=
  ∀ i x, xs !! i = Some x → ∃ x', xs' !! i = Some x' ∧ sameRequest x x'.

(** The render whose [_startStream] an event may run: the first render for
    the events that call [open], the new render for the stream effect. *)
Definition opener (w : World) (e : Event) : option Render :=
  match e with
  | CallOpen | TimeoutFires _ | VisibilityChange visible => Some (mounted w)
  | Rerender r => Some r
  | _ => None
  end.


(** ** Sample renders, sessions and traces *)

Definition testURL : string := "http://localhost:5173/api/sse".

(** The hook called with a target and no configuration. *)
Definition noConfig (url : string) : Render :=
  {| input := url; config := None |}.

(** A caller's [onOpen] that accepts every response; the hook is mounted
    closed. *)
Definition pendingOnOpen : Render :=
  {| input := testURL;
     config := Some
       {| fetchRequestInit := None; openWhenHidden := None;
          initiallyOpen := Some false; defaultRetryInterval := None;
          onOpen := Some (λ _, Resolved); onEventMessage := None;
          onClose := None; onError := None |} |}.

(** A policy that gives up on every error. *)
Definition givesUp : Render :=
  {| input := testURL;
     config := Some
       {| fetchRequestInit := None; openWhenHidden := None;
          initiallyOpen := None; defaultRetryInterval := None;
          onOpen := None; onEventMessage := None;
          onClose := None; onError := Some (λ _ _, RFalse) |} |}.

(** A session that honours visibility, mounted closed. *)
Definition gated : Render :=
  {| input := testURL;
     config := Some
       {| fetchRequestInit := None; openWhenHidden := Some false;
          initiallyOpen := Some false; defaultRetryInterval := None;
          onOpen := None; onEventMessage := None;
          onClose := None; onError := None |} |}.

(** The same configuration with another target. *)
Definition gatedNewTarget : Render :=
  {| input := "http://localhost:5173/api/sse?channel=2";
     config := config gated |}.

Definition okResponse : Response :=
  {| status := 200; contentType := Some "text/event-stream" |}.

Definition notFound : Response :=
  {| status := 404; contentType := Some "text/html" |}.

Definition capitals : Response :=
  {| status := 200; contentType := Some "Text/Event-Stream" |}.

Definition frameA1 : FetchEventSourceMessage :=
  {| ev_id := "a1"; ev_event := "e"; ev_data := "d"; ev_retry := Some 2000%Z |}.

Definition frameNoId : FetchEventSourceMessage :=
  {| ev_id := ""; ev_event := ""; ev_data := "d"; ev_retry := None |}.

(** A frame the server may send: [retry: 0], reconnect at once. *)
Definition frameRetryZero : FetchEventSourceMessage :=
  {| ev_id := "a1"; ev_event := "e"; ev_data := "d"; ev_retry := Some 0%Z |}.

(** A session while its first stream is connecting. *)
Definition connectingSession : Session :=
  _startStream (noConfig testURL) (initial (noConfig testURL)).

(** A closed session that has recorded the id "a1". *)
Definition closedWithId : Session :=
  set_lastEventId (Some "a1") (initial (noConfig testURL)).

(** A session that recorded the id "a1" and the interval 2000, with a
    stream in flight and a retry pending. *)
Definition busySession : Session :=
  set_retryTimeoutId (Some 1)
    (set_nextTimeoutId 2
       (set_timeouts {[ 1 := 2000%Z ]}
          (set_retryInterval 2000
             (_startStream (noConfig testURL) closedWithId)))).

(** close() arrives while the caller's [onOpen] is still pending: the
    callback resumes after its [await] and reports OPEN for an exchange that
    is already aborted. *)
Definition closedDuringOnOpen : list Event :=
  [CallOpen; ResponseArrives 0 okResponse; CallClose; OnOpenSettles 0].

(** The timeout a remote close schedules replaces the id the session
    tracks without clearing the one tracked before (the [.catch] path does
    clear it first).  Here a retry is pending after a failed connection, the
    caller reopens by hand, the stream opens and ends, and a second retry is
    scheduled; the first timeout is still pending and no longer tracked. *)
Definition supersededTimeout : list Event :=
  [ExchangeFails 0 (JError "Failed to fetch");
   CallOpen;
   ResponseArrives 1 okResponse;
   RemoteCloses 1;
   CallClose].

(** The target changes while the stream is open; the new stream opens and
    the server ends it; the retry fires. *)
Definition retryAfterNewTarget : list Event :=
  [ResponseArrives 0 okResponse;
   Rerender (noConfig "http://localhost:5173/api/sse?channel=2");
   ResponseArrives 1 okResponse;
   RemoteCloses 1;
   TimeoutFires 1].

(** The gated session opened by hand, with one frame received. *)
Definition gatedOpen : World :=
  default (mount gated)
    (run (mount gated)
       [CallOpen; ResponseArrives 0 okResponse; MessageArrives 0 frameA1]).

(** The first connection failed: a retry is pending. *)
Definition retryPending : World :=
  default (mount (noConfig testURL))
    (run (mount (noConfig testURL)) [ExchangeFails 0 (JError "Failed to fetch")]).

(** The first stream is open. *)
Definition streamOpen : World :=
  default (mount (noConfig testURL))
    (run (mount (noConfig testURL)) [ResponseArrives 0 okResponse]).

(** The caller closes while the retry is pending; the target changes and
    the page comes back. *)
Definition retryClosed : World :=
  default retryPending
    (run retryPending
       [CallClose; Rerender gatedNewTarget; VisibilityChange visible]).

(** The gated session just after open(). *)
Definition gatedConnecting : World :=
  default (mount gated) (step (mount gated) CallOpen).

(** A policy that retries every error after five seconds. *)
Definition retriesInFive : Render :=
  {| input := testURL;
     config := Some
       {| fetchRequestInit := None; openWhenHidden := None;
          initiallyOpen := None; defaultRetryInterval := None;
          onOpen := None; onEventMessage := None;
          onClose := None; onError := Some (λ _ _, RNumber 5000) |} |}.

(** An event stream announced with its charset. *)
Definition withCharset : Response :=
  {| status := 200; contentType := Some "text/event-stream; charset=utf-8" |}.

(** * Properties *)

(** ** Bookkeeping *)

(** Unfolds the handlers and splits on every test they make. *)
Ltac handler_cases :=
  repeat progress
    (unfold settleOnOpen, oncatch, onclose, onopen, onopenResume, open,
       onVisibilityChange, streamEffect, streamEffectCleanup, close,
       _handleRetry, consultPolicy, _startStream, _clearRetryTimeout,
       setTimeout, clearTimeout, abort, setPhase, live in *);
  repeat (simpl in *; case_match; simplify_eq); simpl in *.

Lemma set_explicitlyOpen_id (s : Session) :
  set_explicitlyOpen (explicitlyOpen s) s = s.
Proof. by destruct s. Qed.

Section RequestHeaders.
Variables (r : Render) (s : Session).

(** A header the caller supplied is sent as supplied. *)
Lemma requestHeaders_caller (k v : string) :
  callerHeaders r !! k = Some v → requestHeaders r s !! k = Some v.
Proof.
  intros Hk. unfold requestHeaders, spread. fold (callerHeaders r).
  by apply lookup_union_Some_l.
Qed.

(** Nothing but [Last-Event-ID] is added. *)
Lemma requestHeaders_other (k : string) :
  k ≠ "Last-Event-ID" → requestHeaders r s !! k = callerHeaders r !! k.
Proof.
  intros Hk. unfold requestHeaders, spread. fold (callerHeaders r).
  destruct (callerHeaders r !! k) as [v|] eqn:Hc.
  - by apply lookup_union_Some_l.
  - rewrite lookup_union_r by done.
    destruct (lastEventId s) as [i|]; [destruct (truthyString i)|];
      rewrite ?lookup_empty, ?lookup_singleton_ne; done.
Qed.

(** The recorded id is injected when the caller supplied none. *)
Lemma requestHeaders_injected (i : string) :
  lastEventId s = Some i → i ≠ "" →
  callerHeaders r !! "Last-Event-ID" = None →
  requestHeaders r s !! "Last-Event-ID" = Some i.
Proof.
  intros Hi Hne Hc. unfold requestHeaders, spread. fold (callerHeaders r).
  rewrite lookup_union_r by done. rewrite Hi.
  unfold truthyString. destruct (String.eqb_spec i "") as [->|_]; [done|].
  simpl. by rewrite lookup_singleton_eq.
Qed.

(** With no recorded id the caller's headers go out unchanged. *)
Lemma requestHeaders_absent :
  lastEventId s = None → requestHeaders r s = callerHeaders r.
Proof.
  intros Hi. unfold requestHeaders, spread. fold (callerHeaders r).
  rewrite Hi. apply (right_id_L ∅ (∪)).
Qed.
End RequestHeaders.

(** [requestHeaders] reads [lastEventId] and nothing else of the session. *)
Lemma requestHeaders_ext (r : Render) (s s' : Session) :
  lastEventId s = lastEventId s' → requestHeaders r s = requestHeaders r s'.
Proof. unfold requestHeaders. by intros ->. Qed.

(** ** One exchange in flight, and it is the tracked one *)

Section Tracking.
Variables (c : option nat) (st : FetchEventSourceState) (xs : list Exchange).

Lemma tracked_none (c' : option nat) (st' : FetchEventSourceState) :
  noneInFlight xs → tracked c' st' xs.
Proof.
  intros Hn. split; [|done].
  intros i e He Hf. rewrite (Hn i e He) in Hf. discriminate Hf.
Qed.

Lemma tracked_start (e : Exchange) :
  noneInFlight xs → tracked (Some (length xs)) CONNECTING (xs ++ [e]).
Proof.
  intros Hn. split; [|done].
  intros i x Hx Hf. apply lookup_app_Some in Hx as [Hx|[Hge Hx]].
  - rewrite (Hn i x Hx) in Hf. discriminate Hf.
  - apply list_lookup_singleton_Some in Hx as [Hi _]. f_equal. lia.
Qed.

Lemma noneInFlight_abort :
  tracked c st xs →
  noneInFlight (match c with
                | Some i => alter (set_ex_aborted true) i xs
                | None => xs
                end).
Proof.
  intros [HI _] j e He. destruct c as [i|].
  - rewrite list_lookup_alter in He. case_decide as Hij.
    + subst j. destruct (xs !! i) as [x|]; simplify_eq/=. done.
    + destruct (inFlight e) eqn:Hf; [|done].
      specialize (HI j e He Hf). congruence.
  - destruct (inFlight e) eqn:Hf; [|done].
    specialize (HI j e He Hf). discriminate HI.
Qed.

Lemma noneInFlight_finish (i : nat) (x : Exchange) :
  tracked c st xs → xs !! i = Some x → inFlight x = true →
  noneInFlight (alter (set_ex_phase Finished) i xs).
Proof.
  intros [HI _] Hx Hfx j e He.
  rewrite list_lookup_alter in He. case_decide as Hij.
  - subst j. rewrite Hx in He. simplify_eq/=. unfold inFlight. simpl.
    apply andb_false_r.
  - destruct (inFlight e) eqn:Hf; [|done].
    pose proof (HI j e He Hf). pose proof (HI i x Hx Hfx). congruence.
Qed.

Lemma tracked_open (i : nat) (x : Exchange) :
  tracked c st xs → xs !! i = Some x → inFlight x = true → st ≠ CLOSED.
Proof.
  intros [_ HJ] Hx Hf Hst. rewrite (HJ Hst i x Hx) in Hf. discriminate Hf.
Qed.

Lemma tracked_phase (i : nat) (p : Phase) (st' : FetchEventSourceState) :
  tracked c st xs →
  (∀ x, xs !! i = Some x → inFlight (set_ex_phase p x) = inFlight x) →
  (st' = CLOSED → st = CLOSED) →
  tracked c st' (alter (set_ex_phase p) i xs).
Proof.
  intros [HI HJ] Hp Hst. split.
  - intros j e He Hf. rewrite list_lookup_alter in He. case_decide as Hij.
    + subst j. destruct (xs !! i) as [x|] eqn:Hx; simplify_eq/=.
      rewrite Hp in Hf by done. by apply (HI i x).
    + by apply (HI j e).
  - intros Hc j e He. specialize (HJ (Hst Hc)).
    rewrite list_lookup_alter in He. case_decide as Hij.
    + subst j. destruct (xs !! i) as [x|] eqn:Hx; simplify_eq/=.
      rewrite Hp by done. by apply (HJ i x).
    + by apply (HJ j e).
Qed.
End Tracking.

Lemma handleRetry_tracking (r : Render) (err : JsValue) (s : Session) :
  abortController (_handleRetry r err s) = abortController s
  ∧ readyState (_handleRetry r err s) = readyState s
  ∧ exchanges (_handleRetry r err s) = exchanges s.
Proof. handler_cases; done. Qed.

Lemma clearRetryTimeout_tracking (s : Session) :
  abortController (_clearRetryTimeout s) = abortController s
  ∧ readyState (_clearRetryTimeout s) = readyState s
  ∧ exchanges (_clearRetryTimeout s) = exchanges s.
Proof. handler_cases; done. Qed.

Lemma open_wellTracked (r : Render) (s : Session) :
  wellTracked s → wellTracked (open r s).
Proof.
  intros H. unfold open. simpl. destruct (readyState s) eqn:Hst;
    try exact H.
  unfold wellTracked. simpl. apply tracked_start.
  destruct H as [_ HJ]. by apply HJ.
Qed.

Lemma abort_noneInFlight (s : Session) :
  wellTracked s → noneInFlight (exchanges (abort s)).
Proof.
  intros H. apply noneInFlight_abort in H. unfold abort.
  by destruct (abortController s).
Qed.

Lemma close_noneInFlight (s : Session) :
  wellTracked s → noneInFlight (exchanges (close s)).
Proof.
  intros H.
  destruct (clearRetryTimeout_tracking (abort (set_explicitlyOpen false s)))
    as (_ & _ & Hx).
  unfold close. simpl. rewrite Hx.
  by apply (abort_noneInFlight (set_explicitlyOpen false s)).
Qed.

Lemma close_wellTracked (s : Session) : wellTracked s → wellTracked (close s).
Proof. intros H. apply tracked_none. by apply close_noneInFlight. Qed.

Lemma rerender_wellTracked (r : Render) (s : Session) :
  wellTracked s → wellTracked (streamEffect r (streamEffectCleanup s)).
Proof.
  intros H.
  assert (noneInFlight (exchanges (streamEffectCleanup s))) as Hn.
  { unfold streamEffectCleanup.
    destruct (clearRetryTimeout_tracking (abort s)) as (_ & _ & ->).
    by apply abort_noneInFlight. }
  unfold streamEffect. case_match.
  - by apply tracked_start.
  - by apply tracked_none.
Qed.

Lemma onVisibilityChange_wellTracked
    (r : Render) (v : VisibilityState) (s : Session) :
  wellTracked s → wellTracked (onVisibilityChange r v s).
Proof.
  intros H. unfold onVisibilityChange. destruct v; simpl.
  - case_match; [|exact H]. by apply open_wellTracked.
  - apply tracked_none. simpl.
    by apply (abort_noneInFlight (set_hidden true s)).
Qed.

Lemma finish_handleRetry_wellTracked
    (r : Render) (err : JsValue) (s s0 : Session) (i : nat) (x : Exchange) :
  wellTracked s → exchanges s !! i = Some x → inFlight x = true →
  exchanges s0 = alter (set_ex_phase Finished) i (exchanges s) →
  wellTracked (_handleRetry r err s0).
Proof.
  intros H Hx Hf Hs0. apply tracked_none.
  destruct (handleRetry_tracking r err s0) as (_ & _ & ->). rewrite Hs0.
  by eapply noneInFlight_finish.
Qed.

Lemma live_inFlight (i : nat) (s : Session) (x : Exchange) :
  live i s = Some x → ex_phase x ≠ Finished →
  exchanges s !! i = Some x ∧ inFlight x = true.
Proof.
  unfold live, inFlight. intros H Hp.
  destruct (exchanges s !! i) as [e|]; [|done].
  destruct (ex_aborted e) eqn:Ha; simplify_eq. rewrite Ha.
  split; [done|]. by destruct (ex_phase x).
Qed.

Lemma setPhase_wellTracked (i : nat) (p : Phase) (s s' : Session) :
  wellTracked s →
  (∀ x, exchanges s !! i = Some x → inFlight (set_ex_phase p x) = inFlight x) →
  abortController s' = abortController s →
  (readyState s' = CLOSED → readyState s = CLOSED) →
  exchanges s' = alter (set_ex_phase p) i (exchanges s) →
  wellTracked s'.
Proof.
  intros H Hp Hc Hst Hxs. unfold wellTracked. rewrite Hc, Hxs.
  by eapply tracked_phase.
Qed.

Lemma settleOnOpen_wellTracked
    (i : nat) (x : Exchange) (response : Response) (s : Session) :
  wellTracked s → exchanges s !! i = Some x → ex_phase x ≠ Finished →
  wellTracked (settleOnOpen i x response s).
Proof.
  intros H Hx Hp. unfold settleOnOpen.
  destruct (onopen (ex_render x) response s) as [err|s'] eqn:Ho.
  - destruct (ex_aborted x) eqn:Ha.
    + apply (setPhase_wellTracked i Finished s); try done.
      intros y Hy. unfold inFlight. simpl. rewrite Hx in Hy. simplify_eq.
      by rewrite Ha.
    + unfold oncatch.
      eapply (finish_handleRetry_wellTracked _ _ s _ i x); try done.
      * unfold inFlight. rewrite Ha. by destruct (ex_phase x).
      * by destruct (clearRetryTimeout_tracking
                       (setReadyState CLOSED (setPhase i Finished s)))
          as (_ & _ & ->).
  - assert (s' = onopenResume s) as ->.
    { unfold onopen in Ho. repeat case_match; by simplify_eq. }
    apply (setPhase_wellTracked i (if ex_aborted x then Finished else Streaming) s);
      try done.
    intros y Hy. rewrite Hx in Hy. simplify_eq. unfold inFlight. simpl.
    destruct (ex_aborted y); [done|]. simpl. by destruct (ex_phase y).
Qed.

Lemma onmessage_tracking
    (r : Render) (ev : FetchEventSourceMessage) (s : Session) :
  abortController (onmessage r ev s).1 = abortController s
  ∧ readyState (onmessage r ev s).1 = readyState s
  ∧ exchanges (onmessage r ev s).1 = exchanges s.
Proof. unfold onmessage. repeat case_match; done. Qed.

Lemma mount_wellTracked (r : Render) : wellTracked (session (mount r)).
Proof.
  simpl. unfold streamEffect. case_match.
  - by apply tracked_start.
  - by apply tracked_none.
Qed.

Lemma step_wellTracked (w w' : World) (e : Event) :
  wellTracked (session w) → step w e = Some w' → wellTracked (session w').
Proof.
  intros H Hstep.
  destruct e as [| |r|v|t|i response|i|i ev|i|i err]; unfold step in Hstep.
  - simplify_eq. by apply open_wellTracked.
  - simplify_eq. by apply close_wellTracked.
  - simplify_eq. by apply rerender_wellTracked.
  - case_match; simplify_eq; [|done]. by apply onVisibilityChange_wellTracked.
  - case_match; simplify_eq. by apply open_wellTracked.
  - destruct (live i (session w)) as [x|] eqn:Hl; [|done].
    destruct (ex_phase x) eqn:Hp; try done.
    destruct (live_inFlight i _ x Hl) as [Hx Hf]; [by rewrite Hp|].
    case_match; simplify_eq; simpl.
    + apply (setPhase_wellTracked i (AwaitingOnOpen response) (session w));
        try done.
      intros y Hy. rewrite Hx in Hy. simplify_eq. unfold inFlight. simpl.
      by rewrite Hp.
    + apply settleOnOpen_wellTracked; [done..|]. by rewrite Hp.
  - destruct (exchanges (session w) !! i) as [x|] eqn:Hx; [|done].
    destruct (ex_phase x) eqn:Hp; simplify_eq. simpl.
    apply settleOnOpen_wellTracked; [done..|]. by rewrite Hp.
  - destruct (live i (session w)) as [x|] eqn:Hl; [|done].
    destruct (ex_phase x) eqn:Hp; try done.
    destruct (live_inFlight i _ x Hl) as [Hx Hf]; [by rewrite Hp|].
    destruct (onmessage_tracking (ex_render x) ev (session w))
      as (Hc & Hst & Hxs).
    destruct (onmessage (ex_render x) ev (session w)) as [s' [err'|]];
      simplify_eq; simpl in *.
    + unfold oncatch.
      eapply (finish_handleRetry_wellTracked _ _ (session w) _ i x); try done.
      destruct (clearRetryTimeout_tracking
                  (setReadyState CLOSED (setPhase i Finished s')))
        as (_ & _ & ->).
      simpl. by rewrite Hxs.
    + unfold wellTracked. by rewrite Hc, Hst, Hxs.
  - destruct (live i (session w)) as [x|] eqn:Hl; [|done].
    destruct (ex_phase x) eqn:Hp; try done.
    destruct (live_inFlight i _ x Hl) as [Hx Hf]; [by rewrite Hp|].
    simplify_eq. simpl. unfold onclose.
    by eapply (finish_handleRetry_wellTracked _ _ (session w) _ i x).
  - destruct (live i (session w)) as [x|] eqn:Hl; [|done].
    destruct (live_inFlight i _ x Hl) as [Hx Hf].
    { by destruct (ex_phase x). }
    destruct (ex_phase x) eqn:Hp; simplify_eq; simpl; unfold oncatch;
      eapply (finish_handleRetry_wellTracked _ _ (session w) _ i x); try done;
      by destruct (clearRetryTimeout_tracking
                     (setReadyState CLOSED (setPhase i Finished (session w))))
        as (_ & _ & ->).
Qed.

(** Every session reached from a mount is well tracked. *)
Lemma run_wellTracked (w w' : World) (es : list Event) :
  wellTracked (session w) → run w es = Some w' → wellTracked (session w').
Proof.
  revert w. induction es as [|e es IH]; intros w H Hrun; simpl in Hrun.
  - by simplify_eq.
  - destruct (step w e) as [w1|] eqn:Hs; [|done].
    eapply IH; [|exact Hrun]. by eapply step_wellTracked.
Qed.

Lemma reachable_wellTracked (r : Render) (es : list Event) (w : World) :
  run (mount r) es = Some w → wellTracked (session w).
Proof. apply run_wellTracked, mount_wellTracked. Qed.

(** ** open() *)

(** C1, as stated, fails: in a session reached by
    open(), response, close(), onOpen settling, [readyState] is OPEN and
    open() changes the session ([explicitlyOpen] goes from false to true). *)
Lemma open_while_open_not_noop :
  ∃ w, run (mount pendingOnOpen) closedDuringOnOpen = Some w
       ∧ readyState (session w) = OPEN
       ∧ explicitlyOpen (session w) = false
       ∧ open (mounted w) (session w) ≠ session w.
Proof.
  eexists. split; [vm_compute; reflexivity|].
  split; [vm_compute; reflexivity|]. split; [vm_compute; reflexivity|].
  intros H. apply (f_equal explicitlyOpen) in H. vm_compute in H.
  discriminate H.
Qed.

(** C1 (amended): open() sets [explicitlyOpen] in every state.  While OPEN or
    CONNECTING it does nothing else: no exchange is started and no other
    field changes, so it is a no-op whenever [explicitlyOpen] was already
    true.  While CLOSED it moves to CONNECTING and starts exactly one
    exchange, tracked by a fresh controller, whose headers are the caller's
    headers plus [Last-Event-ID] when an id is recorded; a [Last-Event-ID]
    supplied by the caller is the one sent. *)
Theorem open_contract (r : Render) (s : Session) :
  (readyState s ≠ CLOSED →
     open r s = set_explicitlyOpen true s
     ∧ readyState (open r s) = readyState s
     ∧ exchanges (open r s) = exchanges s
     ∧ (explicitlyOpen s = true → open r s = s))
  ∧ (readyState s = CLOSED →
     explicitlyOpen (open r s) = true
     ∧ readyState (open r s) = CONNECTING
     ∧ abortController (open r s) = Some (length (exchanges s))
     ∧ ∃ e, exchanges (open r s) = exchanges s ++ [e]
          ∧ ex_input e = input r
          ∧ ex_rest e = restOf r
          ∧ ex_aborted e = false
          ∧ (∀ k v, callerHeaders r !! k = Some v → ex_headers e !! k = Some v)
          ∧ (∀ k, k ≠ "Last-Event-ID" → ex_headers e !! k = callerHeaders r !! k)
          ∧ (∀ i, lastEventId s = Some i → i ≠ "" →
                  callerHeaders r !! "Last-Event-ID" = None →
                  ex_headers e !! "Last-Event-ID" = Some i)
          ∧ (lastEventId s = None → ex_headers e = callerHeaders r)).
Proof.
  split; intros Hst.
  - assert (open r s = set_explicitlyOpen true s) as Heq.
    { unfold open. simpl. by destruct (readyState s). }
    rewrite Heq. repeat split; try done.
    intros Ho. rewrite <- Ho. apply set_explicitlyOpen_id.
  - unfold open. simpl. rewrite Hst. repeat split.
    eexists. split; [reflexivity|]. simpl. repeat split.
    + apply requestHeaders_caller.
    + apply requestHeaders_other.
    + intros i Hi. by apply requestHeaders_injected.
    + intros Hi. by apply requestHeaders_absent.
Qed.

Lemma open_contract_witness :
  open (noConfig testURL) connectingSession = connectingSession
  ∧ ∃ e, exchanges (open (noConfig testURL) closedWithId) = [e]
         ∧ ex_headers e !! "Last-Event-ID" = Some "a1".
Proof.
  split.
  - apply (proj1 (open_contract (noConfig testURL) connectingSession));
      [vm_compute; discriminate | vm_compute; reflexivity].
  - destruct (proj2 (open_contract (noConfig testURL) closedWithId))
      as (_ & _ & _ & e & He & _ & _ & _ & _ & _ & Hinj & _);
      [vm_compute; reflexivity|].
    exists e. split; [exact He|].
    apply (Hinj "a1");
      [vm_compute; reflexivity | discriminate | vm_compute; reflexivity].
Defined.

Lemma open_closed (r : Render) (s : Session) :
  readyState s = CLOSED → open r s = _startStream r (set_explicitlyOpen true s).
Proof. intros H. unfold open. simpl. by rewrite H. Qed.

Lemma startStream_exchanges (r : Render) (s : Session) :
  exchanges (_startStream r s)
  = exchanges s
      ++ [{| ex_input := input r; ex_headers := requestHeaders r s;
             ex_rest := restOf r; ex_render := r;
             ex_aborted := false; ex_phase := Fetching |}].
Proof. reflexivity. Qed.

(** ** close() *)

(** Unfolds [close] down to the two references it follows. *)
Ltac close_cases s :=
  let c := fresh "c" in
  let t := fresh "t" in
  unfold close, _clearRetryTimeout, abort, clearTimeout;
  destruct s as [[c|] ? [[|t]|] ? ? ? ? ? ? ? ? ? ?]; simpl in *.

Lemma close_readyState (s : Session) : readyState (close s) = CLOSED.
Proof. close_cases s; done. Qed.

Lemma close_lastEventId (s : Session) : lastEventId (close s) = lastEventId s.
Proof. close_cases s; done. Qed.

Lemma close_retryInterval (s : Session) :
  retryInterval (close s) = retryInterval s.
Proof. close_cases s; done. Qed.

Lemma close_nextTimeoutId (s : Session) :
  nextTimeoutId (close s) = nextTimeoutId s.
Proof. close_cases s; done. Qed.

(** C10: close() writes CLOSED and [explicitlyOpen = false], aborts the
    tracked exchange (the only one that can be in flight in a session
    reached from a mount) and clears the tracked timeout, and leaves
    [lastEventId], [retryInterval], [errorRetries] and [eventMessage] (and
    every other exchange and timeout) as they were.  The open() that follows
    therefore sends the headers the session would have sent before, with the
    recorded [Last-Event-ID], and the next default retry waits the interval
    negotiated before. *)
Theorem close_frame (r : Render) (s : Session) :
  readyState (close s) = CLOSED
  ∧ explicitlyOpen (close s) = false
  ∧ (∀ i e, abortController s = Some i → exchanges s !! i = Some e →
            exchanges (close s) !! i = Some (set_ex_aborted true e))
  ∧ (∀ j, abortController s ≠ Some j →
          exchanges (close s) !! j = exchanges s !! j)
  ∧ (wellTracked s → noneInFlight (exchanges (close s)))
  ∧ (∀ t, retryTimeoutId s = Some t → t ≠ 0 →
          timeouts (close s) !! t = None ∧ retryTimeoutId (close s) = None)
  ∧ (∀ t, retryTimeoutId s ≠ Some t →
          timeouts (close s) !! t = timeouts s !! t)
  ∧ lastEventId (close s) = lastEventId s
  ∧ retryInterval (close s) = retryInterval s
  ∧ errorRetries (close s) = errorRetries s
  ∧ eventMessage (close s) = eventMessage s
  ∧ hidden (close s) = hidden s
  ∧ abortController (close s) = abortController s
  ∧ nextTimeoutId (close s) = nextTimeoutId s
  ∧ policyCalls (close s) = policyCalls s
  ∧ (∃ e, exchanges (open r (close s)) = exchanges (close s) ++ [e]
          ∧ ex_headers e = requestHeaders r s
          ∧ (∀ i, lastEventId s = Some i → i ≠ "" →
                  callerHeaders r !! "Last-Event-ID" = None →
                  ex_headers e !! "Last-Event-ID" = Some i))
  ∧ retryInterval (open r (close s)) = retryInterval s
  ∧ (optional onClose r = None →
     timeouts (onclose r (open r (close s))) !! nextTimeoutId s
     = Some (retryInterval s)).
Proof.
  split; [apply close_readyState|].
  split; [close_cases s; done|].
  split.
  { intros i e Hc He. close_cases s; simplify_eq;
      rewrite list_lookup_alter_eq, He; done. }
  split.
  { intros j Hj. close_cases s; try done;
      rewrite list_lookup_alter_ne; congruence. }
  split; [apply close_noneInFlight|].
  split.
  { intros t Ht Hne. close_cases s; simplify_eq;
      try (split; [apply lookup_delete_eq | done]). }
  split.
  { intros t Ht. close_cases s; try done;
      rewrite lookup_delete_ne; congruence. }
  do 8 (split; [close_cases s; done|]).
  rewrite (open_closed r (close s)) by apply close_readyState.
  split.
  { eexists. split; [rewrite startStream_exchanges; reflexivity|]. simpl.
    assert (requestHeaders r (set_explicitlyOpen true (close s))
            = requestHeaders r s) as ->.
    { apply requestHeaders_ext. simpl. apply close_lastEventId. }
    split; [done|]. intros i. apply requestHeaders_injected. }
  split; [simpl; apply close_retryInterval|].
  intros Hnone. rewrite <- (close_nextTimeoutId s), <- (close_retryInterval s).
  generalize (close s) as c. intros c.
  unfold onclose, _handleRetry, consultPolicy. simpl.
  rewrite Hnone. simpl. apply lookup_insert_eq.
Qed.

Lemma busySession_wellTracked : wellTracked busySession.
Proof.
  split.
  - intros [|i] e He Hf; [reflexivity|]. simpl in He. discriminate He.
  - intros Hst. vm_compute in Hst. discriminate Hst.
Qed.

Lemma close_frame_witness :
  (exchanges (close busySession) !! 0 =
     set_ex_aborted true <$> exchanges busySession !! 0)
  ∧ noneInFlight (exchanges (close busySession))
  ∧ timeouts (close busySession) !! 1 = None
  ∧ (∃ e, exchanges (open (noConfig testURL) (close busySession))
          = exchanges (close busySession) ++ [e]
          ∧ ex_headers e !! "Last-Event-ID" = Some "a1")
  ∧ timeouts (onclose (noConfig testURL)
                (open (noConfig testURL) (close busySession))) !! 2
    = Some 2000%Z.
Proof.
  destruct (close_frame (noConfig testURL) busySession)
    as (_ & _ & Hab & _ & Hnone & Hto & _ & _ & _ & _ & _ & _ & _ & _ & _
        & (e & He & _ & Hinj) & _ & Hretry).
  split.
  { destruct (exchanges busySession !! 0) as [x|] eqn:Hx;
      [|vm_compute in Hx; discriminate Hx].
    apply (Hab 0 x); [vm_compute; reflexivity | exact Hx]. }
  split; [exact (Hnone busySession_wellTracked)|].
  split.
  { apply (Hto 1); [vm_compute; reflexivity | discriminate]. }
  split.
  { exists e. split; [exact He|].
    apply (Hinj "a1");
      [vm_compute; reflexivity | discriminate | vm_compute; reflexivity]. }
  specialize (Hretry eq_refl).
  change (nextTimeoutId busySession) with 2 in Hretry.
  change (retryInterval busySession) with 2000%Z in Hretry.
  exact Hretry.
Defined.

(** [_clearRetryTimeout] touches the timeout table and the tracked id only. *)
Lemma clearRetryTimeout_eq (s : Session) :
  _clearRetryTimeout s
  = set_retryTimeoutId (retryTimeoutId (_clearRetryTimeout s))
      (set_timeouts (timeouts (_clearRetryTimeout s)) s).
Proof.
  unfold _clearRetryTimeout, clearTimeout.
  destruct s as [? ? [[|t]|] ? ? ? ? ? ? ? ? ? ?]; reflexivity.
Qed.

(** Where the tracked timeout is the only one pending and the tracked
    exchange the only one in flight, close() leaves the session at rest. *)
Lemma close_idle (s : Session) :
  wellTracked s → onlyTrackedTimeout s → idle (close s).
Proof.
  intros Hw Ht. split; [close_cases s; done|].
  split; [|by apply close_noneInFlight].
  apply map_empty. intros t.
  destruct (timeouts (close s) !! t) as [ms|] eqn:Hl; [|done].
  assert (timeouts s !! t = Some ms) as Hs.
  { revert Hl. close_cases s; try done; intros Hl;
      by apply lookup_delete_Some in Hl as [_ Hl]. }
  destruct (Ht t ms Hs) as [Hid Hne].
  revert Hl. close_cases s; simplify_eq; by rewrite lookup_delete_eq.
Qed.

Lemma noneInFlight_alter_aborted (xs : list Exchange) (i : nat) :
  noneInFlight xs → noneInFlight (alter (set_ex_aborted true) i xs).
Proof.
  intros Hn j e He. rewrite list_lookup_alter in He. case_decide.
  - destruct (xs !! i); by simplify_eq/=.
  - by apply (Hn j e).
Qed.

Lemma noneInFlight_alter_finished (xs : list Exchange) (i : nat) :
  noneInFlight xs → noneInFlight (alter (set_ex_phase Finished) i xs).
Proof.
  intros Hn j e He. rewrite list_lookup_alter in He. case_decide.
  - destruct (xs !! i); simplify_eq/=. unfold inFlight. simpl.
    apply andb_false_r.
  - by apply (Hn j e).
Qed.

Lemma idle_not_live (s : Session) (i : nat) (x : Exchange) :
  idle s → live i s = Some x → ex_phase x = Finished.
Proof.
  intros (_ & _ & Hn) Hl.
  destruct (ex_phase x) eqn:Hp; [| | |done];
    destruct (live_inFlight i s x Hl) as [Hx Hf]; try (by rewrite Hp);
    rewrite (Hn i x Hx) in Hf; discriminate Hf.
Qed.

Ltac idle_goal :=
  unfold idle; simpl; rewrite ?length_alter, ?delete_empty;
  repeat split; simpl;
  auto using noneInFlight_alter_aborted, noneInFlight_alter_finished.

(** A session at rest stays at rest, and starts no exchange, whatever
    happens, until the caller calls open(). *)
Lemma idle_until_open (w w' : World) (e : Event) :
  idle (session w) → e ≠ CallOpen → step w e = Some w' →
  idle (session w')
  ∧ length (exchanges (session w')) = length (exchanges (session w)).
Proof.
  intros Hidle Hne Hstep. pose proof Hidle as (Heo & Hto & Hn).
  destruct e as [| |r|v|t|i response|i|i ev|i|i err]; unfold step in Hstep;
    try done.
  - simplify_eq. unfold close, _clearRetryTimeout, clearTimeout, abort.
    destruct (session w) as [[c|] ? [[|t]|] ? ? ? ? ? ? ? ? ? ?];
      simpl in *; subst; idle_goal.
  - simplify_eq. simpl.
    unfold streamEffect, streamEffectCleanup, _clearRetryTimeout, clearTimeout,
      abort.
    destruct (session w) as [[c|] ? [[|t]|] ? ? ? ? ? ? ? ? ? ?];
      simpl in *; subst; idle_goal.
  - case_match; simplify_eq; [|done]. unfold onVisibilityChange, abort.
    destruct v; simpl; [rewrite Heo; idle_goal|].
    destruct (abortController (session w)); idle_goal.
  - by rewrite Hto, lookup_empty in Hstep.
  - destruct (live i (session w)) as [x|] eqn:Hl; [|done].
    by rewrite (idle_not_live _ _ _ Hidle Hl) in Hstep.
  - destruct (exchanges (session w) !! i) as [x|] eqn:Hx; [|done].
    destruct (ex_phase x) eqn:Hp; simplify_eq.
    assert (ex_aborted x = true) as Ha.
    { pose proof (Hn i x Hx) as Hf. unfold inFlight in Hf.
      rewrite Hp in Hf. by destruct (ex_aborted x). }
    unfold settleOnOpen. rewrite Ha.
    destruct (onopen (ex_render x) response (session w)) as [err|s'] eqn:Ho.
    + idle_goal.
    + assert (s' = onopenResume (session w)) as ->.
      { unfold onopen in Ho. repeat case_match; by simplify_eq. }
      idle_goal.
  - destruct (live i (session w)) as [x|] eqn:Hl; [|done].
    by rewrite (idle_not_live _ _ _ Hidle Hl) in Hstep.
  - destruct (live i (session w)) as [x|] eqn:Hl; [|done].
    by rewrite (idle_not_live _ _ _ Hidle Hl) in Hstep.
  - destruct (live i (session w)) as [x|] eqn:Hl; [|done].
    by rewrite (idle_not_live _ _ _ Hidle Hl) in Hstep.
Qed.

(** C2 (the code at the failing input): after close() the session is CLOSED
    with [explicitlyOpen = false] and tracks no timeout, yet timeout 1 is
    still pending; when it fires, with no open() from the caller, a new
    exchange is started. *)
Theorem close_misses_superseded_timeout :
  ∃ w w', run (mount (noConfig testURL)) supersededTimeout = Some w
    ∧ readyState (session w) = CLOSED
    ∧ explicitlyOpen (session w) = false
    ∧ retryTimeoutId (session w) = None
    ∧ timeouts (session w) !! 1 = Some 1000%Z
    ∧ step w (TimeoutFires 1) = Some w'
    ∧ readyState (session w') = CONNECTING
    ∧ explicitlyOpen (session w') = true
    ∧ length (exchanges (session w')) = S (length (exchanges (session w))).
Proof.
  do 2 eexists. split; [vm_compute; reflexivity|].
  do 4 (split; [vm_compute; reflexivity|]).
  split; [vm_compute; reflexivity|].
  repeat split; vm_compute; reflexivity.
Qed.

(** ** Message frames *)

(** C3: a frame with an empty id clears [lastEventId]; a frame with any
    other id makes it that id, whatever was recorded before. *)
Theorem onmessage_lastEventId
    (r : Render) (ev : FetchEventSourceMessage) (s : Session) :
  (ev_id ev = "" → lastEventId (onmessage r ev s).1 = None)
  ∧ (ev_id ev ≠ "" → lastEventId (onmessage r ev s).1 = Some (ev_id ev)).
Proof.
  assert (lastEventId (onmessage r ev s).1
          = if String.eqb (ev_id ev) "" then None else Some (ev_id ev)) as ->.
  { unfold onmessage. simpl.
    destruct (ev_retry ev) as [n|]; [destruct (truthyZ n)|]; reflexivity. }
  split; intros H.
  - by rewrite H.
  - by destruct (String.eqb_spec (ev_id ev) "").
Qed.

Lemma onmessage_lastEventId_witness :
  lastEventId (onmessage (noConfig testURL) frameNoId closedWithId).1 = None
  ∧ lastEventId (onmessage (noConfig testURL) frameA1 closedWithId).1
    = Some "a1".
Proof.
  split.
  - apply (proj1 (onmessage_lastEventId _ frameNoId closedWithId)).
    reflexivity.
  - apply (proj2 (onmessage_lastEventId _ frameA1 closedWithId)).
    discriminate.
Defined.

(** What a frame does to [retryInterval]: a non-zero [retry] replaces it; a
    frame without [retry], or with [retry] equal to 0, leaves it. *)
Lemma onmessage_retryInterval
    (r : Render) (ev : FetchEventSourceMessage) (s : Session) :
  retryInterval (onmessage r ev s).1
  = match ev_retry ev with
    | Some n => if (n =? 0)%Z then retryInterval s else n
    | None => retryInterval s
    end.
Proof.
  unfold onmessage, truthyZ. simpl.
  destruct (ev_retry ev) as [n|]; [destruct (n =? 0)%Z|]; reflexivity.
Qed.

Lemma onmessage_retry_adopted
    (r : Render) (ev : FetchEventSourceMessage) (s : Session) (n : Z) :
  ev_retry ev = Some n → n ≠ 0%Z → retryInterval (onmessage r ev s).1 = n.
Proof.
  intros Hev Hn. rewrite onmessage_retryInterval, Hev.
  by destruct (Z.eqb_spec n 0).
Qed.

(** C4 (the code at the failing input): the frame carries [retry = 0]; it is
    reported as [eventMessage], but [retryInterval] stays 1000 and the retry
    scheduled when the server then closes waits 1000 ms, not 0. *)
Theorem retry_zero_not_adopted :
  ∃ w, run (mount (noConfig testURL))
         [ResponseArrives 0 okResponse;
          MessageArrives 0 frameRetryZero;
          RemoteCloses 0] = Some w
    ∧ eventMessage (session w) = Some frameRetryZero
    ∧ ev_retry frameRetryZero = Some 0%Z
    ∧ retryInterval (session w) = 1000%Z
    ∧ timeouts (session w) !! 1 = Some 1000%Z.
Proof.
  eexists. split; [vm_compute; reflexivity|].
  repeat split; vm_compute; reflexivity.
Qed.

(** ** The retry scheduler *)

Lemma clearRetryTimeout_timeouts (s : Session) :
  timeouts (_clearRetryTimeout s) ⊆ timeouts s.
Proof.
  unfold _clearRetryTimeout, clearTimeout.
  destruct (retryTimeoutId s) as [t|]; [destruct (truthyNat t)|]; simpl;
    try done.
  apply delete_subseteq.
Qed.

(** The delay of a retry: the policy's number when it gives one, the
    session's [retryInterval] when it gives none (or is absent). *)
Lemma handleRetry_delay (r : Render) (err : JsValue) (s : Session) :
  match (consultPolicy r err s).1 with
  | RFalse => nextTimeoutId (_handleRetry r err s) = nextTimeoutId s
  | RNumber ms =>
      timeouts (_handleRetry r err s) !! nextTimeoutId s = Some ms
  | RUndefined =>
      timeouts (_handleRetry r err s) !! nextTimeoutId s
      = Some (retryInterval s)
  end.
Proof.
  unfold _handleRetry, consultPolicy.
  destruct (truthy err).
  - destruct (optional onError r) as [f|]; simpl;
      [destruct (f err (errorRetries s))|]; simpl;
      rewrite ?lookup_insert_eq; done.
  - destruct (optional onClose r) as [g|]; simpl;
      [destruct (g ())|]; simpl; rewrite ?lookup_insert_eq; done.
Qed.

(** C5: when the error reaches the caller's [onError] and the policy answers
    [false], the session is CLOSED, no timeout is created (the only change
    to the timeout table is the clearing of the tracked one), and
    [explicitlyOpen] and [errorRetries] are what they were. *)
Theorem onError_false_stops_retry (r : Render) (err : JsValue) (s : Session) :
  policyCalls (oncatch r err s)
  = policyCalls s ++ [CalledOnError err (errorRetries s) RFalse] →
  readyState (oncatch r err s) = CLOSED
  ∧ explicitlyOpen (oncatch r err s) = explicitlyOpen s
  ∧ errorRetries (oncatch r err s) = errorRetries s
  ∧ nextTimeoutId (oncatch r err s) = nextTimeoutId s
  ∧ timeouts (oncatch r err s) ⊆ timeouts s
  ∧ (retryTimeoutId s ≠ Some 0 → retryTimeoutId (oncatch r err s) = None)
  ∧ exchanges (oncatch r err s) = exchanges s.
Proof.
  intros Hlog.
  assert (∃ f, truthy err = true ∧ optional onError r = Some f
               ∧ f err (errorRetries s) = RFalse) as (f & Ht & Hf & Hd).
  { revert Hlog. unfold oncatch, _handleRetry, consultPolicy.
    destruct (truthy err).
    - destruct (optional onError r) as [f|].
      + intros Hlog. exists f. repeat split.
        assert (policyCalls s
                  ++ [CalledOnError err (errorRetries s) (f err (errorRetries s))]
                = policyCalls s
                  ++ [CalledOnError err (errorRetries s) RFalse]) as Heq.
        { rewrite <- Hlog. clear Hlog.
          unfold _clearRetryTimeout, clearTimeout. simpl.
          destruct (retryTimeoutId s) as [t|]; [destruct (truthyNat t)|];
            simpl; destruct (f err _); reflexivity. }
        apply app_inv_head in Heq. by simplify_eq.
      + unfold _clearRetryTimeout, clearTimeout. simpl.
        destruct (retryTimeoutId s) as [t|]; [destruct (truthyNat t)|];
          simpl; intros Hlog;
          apply (f_equal length) in Hlog; rewrite length_app in Hlog;
          simpl in Hlog; lia.
    - destruct (optional onClose r) as [g|];
        unfold _clearRetryTimeout, clearTimeout; simpl;
        destruct (retryTimeoutId s) as [t|]; try destruct (truthyNat t);
        simpl; try destruct (g ()); simpl; intros Hlog;
        try (apply app_inv_head in Hlog; discriminate Hlog);
        apply (f_equal length) in Hlog; rewrite length_app in Hlog;
        simpl in Hlog; lia. }
  clear Hlog. pose proof (clearRetryTimeout_timeouts s) as Hsub. revert Hsub.
  unfold oncatch, _handleRetry, consultPolicy. rewrite Ht, Hf.
  unfold _clearRetryTimeout, clearTimeout.
  destruct s as [? ? [[|t]|] ? ? ? ? ? ? ? ? ? ?]; simpl in *; rewrite Hd;
    simpl; intros Hsub; repeat split; done.
Qed.

Lemma onError_false_stops_retry_witness :
  readyState (oncatch givesUp (JError "Failed to fetch") busySession) = CLOSED
  ∧ errorRetries (oncatch givesUp (JError "Failed to fetch") busySession)
    = errorRetries busySession
  ∧ nextTimeoutId (oncatch givesUp (JError "Failed to fetch") busySession)
    = nextTimeoutId busySession.
Proof.
  destruct (onError_false_stops_retry givesUp (JError "Failed to fetch")
              busySession) as (H1 & _ & H3 & H4 & _);
    [vm_compute; reflexivity|].
  exact (conj H1 (conj H3 H4)).
Defined.

(** The counter of consecutive errors moves only when [_handleRetry] is
    given an error and a retry is scheduled; then it grows by one. *)
Lemma handleRetry_errorRetries (r : Render) (err : JsValue) (s : Session) :
  errorRetries (_handleRetry r err s) ≠ errorRetries s →
  truthy err = true ∧ errorRetries (_handleRetry r err s) = S (errorRetries s).
Proof.
  unfold _handleRetry, consultPolicy.
  destruct (truthy err).
  - destruct (optional onError r) as [f|]; simpl;
      [destruct (f err (errorRetries s))|]; simpl; done.
  - destruct (optional onClose r) as [g|]; simpl;
      [destruct (g ())|]; simpl; done.
Qed.

(** The counter grows in no event but one that reaches the [.catch]
    handler with an error. *)
Lemma errorRetries_grows_on_error (w w' : World) (e : Event) :
  step w e = Some w' →
  errorRetries (session w) < errorRetries (session w') →
  ∃ r err s0, session w' = oncatch r err s0 ∧ truthy err = true.
Proof.
  intros Hstep Hlt.
  assert (∀ r err s0, session w' = oncatch r err s0 →
                      errorRetries s0 = errorRetries (session w) →
                      ∃ r err s0, session w' = oncatch r err s0
                                  ∧ truthy err = true) as Herr.
  { intros r err s0 Hw Hs0. exists r, err, s0. split; [done|].
    rewrite Hw in Hlt. unfold oncatch in Hlt.
    apply (handleRetry_errorRetries r err
             (_clearRetryTimeout (setReadyState CLOSED s0))).
    assert (errorRetries (_clearRetryTimeout (setReadyState CLOSED s0))
            = errorRetries (session w)) as ->; [|lia].
    rewrite <- Hs0. handler_cases; done. }
  destruct e as [| |r|v|t|i response|i|i ev|i|i err]; unfold step in Hstep.
  - exfalso. simplify_eq. revert Hlt. handler_cases; lia.
  - exfalso. simplify_eq. revert Hlt. handler_cases; lia.
  - exfalso. simplify_eq. revert Hlt. handler_cases; lia.
  - exfalso. revert Hlt. handler_cases; lia.
  - exfalso. revert Hlt. handler_cases; lia.
  - destruct (live i (session w)) as [x|]; [|done].
    destruct (ex_phase x); try done.
    destruct (optional onOpen (ex_render x)); simplify_eq.
    { exfalso. simpl in Hlt. lia. }
    unfold settleOnOpen in *.
    destruct (onopen (ex_render x) response (session w)) as [err|s'] eqn:Ho.
    + destruct (ex_aborted x); [exfalso; simpl in Hlt; lia|].
      by eapply Herr.
    + exfalso. unfold onopen in Ho. repeat case_match; simplify_eq;
        simpl in Hlt; lia.
  - destruct (exchanges (session w) !! i) as [x|]; [|done].
    destruct (ex_phase x); simplify_eq.
    unfold settleOnOpen in *.
    destruct (onopen (ex_render x) response (session w)) as [err|s'] eqn:Ho.
    + destruct (ex_aborted x); [exfalso; simpl in Hlt; lia|].
      by eapply Herr.
    + exfalso. unfold onopen in Ho. repeat case_match; simplify_eq;
        simpl in Hlt; lia.
  - destruct (live i (session w)) as [x|]; [|done].
    destruct (ex_phase x); try done.
    destruct (onmessage (ex_render x) ev (session w)) as [s' [err'|]] eqn:Hm;
      simplify_eq.
    + eapply Herr; [done|]. unfold onmessage in Hm. simplify_eq. simpl.
      by repeat case_match.
    + exfalso. unfold onmessage in Hm. simplify_eq. revert Hlt. simpl.
      repeat case_match; simpl; lia.
  - exfalso. destruct (live i (session w)) as [x|]; [|done].
    destruct (ex_phase x); simplify_eq. revert Hlt. simpl.
    unfold onclose, _handleRetry, consultPolicy. simpl.
    repeat case_match; simplify_eq; simpl; lia.
  - destruct (live i (session w)) as [x|]; [|done].
    destruct (ex_phase x); simplify_eq; by eapply Herr.
Qed.

(** A pending timeout, when it fires, runs the [open] of the first render. *)
Lemma timeout_calls_open (w : World) (t : nat) (ms : Z) :
  timeouts (session w) !! t = Some ms →
  step w (TimeoutFires t)
  = Some (with_session (open (mounted w) (clearTimeout t (session w))) w).
Proof. intros H. simpl. by rewrite H. Qed.

(** C6: when the server ends the stream and the caller gave no [onClose], a
    new timeout is created whose delay is the current [retryInterval] and
    whose firing calls open(), and no policy is consulted; and a remote close
    never changes [errorRetries], with or without [onClose]: the counter
    changes in [_handleRetry] only when it is handed an error, and it grows
    in no event but one that reaches the [.catch] handler with an error. *)
Theorem onclose_default_retry (r : Render) (s : Session) :
  (optional onClose r = None →
     readyState (onclose r s) = CLOSED
     ∧ timeouts (onclose r s) = <[nextTimeoutId s := retryInterval s]> (timeouts s)
     ∧ retryTimeoutId (onclose r s) = Some (nextTimeoutId s)
     ∧ nextTimeoutId (onclose r s) = S (nextTimeoutId s)
     ∧ policyCalls (onclose r s) = policyCalls s
     ∧ ∀ w, session w = onclose r s →
            step w (TimeoutFires (nextTimeoutId s))
            = Some (with_session
                      (open (mounted w)
                         (clearTimeout (nextTimeoutId s) (session w))) w))
  ∧ errorRetries (onclose r s) = errorRetries s
  ∧ (∀ err s0, errorRetries (_handleRetry r err s0) ≠ errorRetries s0 →
               truthy err = true)
  ∧ (∀ w e w', step w e = Some w' →
               errorRetries (session w) < errorRetries (session w') →
               ∃ r' err s0, session w' = oncatch r' err s0
                            ∧ truthy err = true).
Proof.
  split; [|split; [|split]].
  - intros Hnone.
    assert (timeouts (onclose r s)
            = <[nextTimeoutId s := retryInterval s]> (timeouts s)) as Hto.
    { unfold onclose, _handleRetry, consultPolicy. simpl. by rewrite Hnone. }
    repeat split; try exact Hto;
      try (unfold onclose, _handleRetry, consultPolicy; simpl;
           by rewrite Hnone).
    intros w Hw. apply (timeout_calls_open w _ (retryInterval s)).
    rewrite Hw, Hto. apply lookup_insert_eq.
  - unfold onclose, _handleRetry, consultPolicy. simpl.
    destruct (optional onClose r) as [g|]; simpl; [destruct (g ())|]; done.
  - intros err s0 H. by apply (handleRetry_errorRetries r err s0).
  - intros w e w'. apply errorRetries_grows_on_error.
Qed.

(** An instance: the stream of a session without configuration ends after
    the server set the interval to 2000. *)
Lemma onclose_default_retry_witness :
  timeouts (onclose (noConfig testURL) busySession)
  = <[2 := 2000%Z]> (timeouts busySession)
  ∧ retryTimeoutId (onclose (noConfig testURL) busySession) = Some 2.
Proof.
  destruct (proj1 (onclose_default_retry (noConfig testURL) busySession))
    as (_ & Hto & Hid & _); [reflexivity|].
  split; [exact Hto | exact Hid].
Defined.

(** ** Validation of the open response *)

Lemma lowerCodeUnit_eqb (x y : Ascii.ascii) :
  plainCodeUnit y = true →
  Ascii.eqb (lowerCodeUnit x) y = Ascii.eqb (foldCase x) (foldCase y).
Proof.
  unfold plainCodeUnit. intros [Hb Hf]%andb_prop.
  apply Ascii.eqb_eq in Hf. rewrite Hf. clear Hf.
  destruct y as [y0 y1 y2 y3 y4 y5 y6 y7].
  apply negb_true_iff in Hb. subst y7.
  destruct x as [[] [] [] [] [] [] [] []];
    first
      [ reflexivity
      | transitivity false;
        [ apply Ascii.eqb_neq; vm_compute; congruence
        | symmetry; apply Ascii.eqb_neq; vm_compute; congruence ] ].
Qed.

Lemma toLowerCase_eqb (a t : string) :
  plainString t = true →
  String.eqb (toLowerCase a) t = equalIgnoringCase a t.
Proof.
  revert t. induction a as [|x a IH]; intros [|y t] Ht; simpl; try done.
  simpl in Ht. apply andb_prop in Ht as [Hy Ht].
  by rewrite lowerCodeUnit_eqb, IH.
Qed.

Lemma contentTypeMismatch_spec (response : Response) :
  contentTypeMismatch response
  = negb match contentType response with
         | Some ct => equalIgnoringCase ct "text/event-stream"
         | None => false
         end.
Proof.
  unfold contentTypeMismatch. destruct (contentType response) as [ct|]; [|done].
  by rewrite toLowerCase_eqb.
Qed.

(** C7: without a caller's [onOpen] the response is accepted exactly when
    the status indicates success and the content type is, up to case,
    [text/event-stream]; otherwise [FetchEventSourceOpenError] is thrown,
    carrying the response.  With a caller's [onOpen] the outcome is the
    callback's alone, whatever the status or content type.  Whenever the
    callback completes, the session is OPEN and [errorRetries] is 0. *)
Theorem onopen_validation (r : Render) (response : Response) (s : Session) :
  (optional onOpen r = None →
     (acceptedByDefault response = true →
        onopen r response s = inr (onopenResume s))
     ∧ (acceptedByDefault response = false →
        onopen r response s
        = inl (JOpenError (openErrorMessage response) response)))
  ∧ (∀ f, optional onOpen r = Some f →
          onopen r response s
          = match f response with
            | Resolved => inr (onopenResume s)
            | Rejected err => inl err
            end)
  ∧ (∀ s', onopen r response s = inr s' →
           readyState s' = OPEN ∧ errorRetries s' = 0
           ∧ s' = set_errorRetries 0 (setReadyState OPEN s)).
Proof.
  split; [|split].
  - intros Hnone. unfold onopen, acceptedByDefault.
    rewrite Hnone, contentTypeMismatch_spec. unfold ok.
    rewrite bool_decide_eq_false_2 by (intros [? ?]; discriminate). simpl.
    rewrite <- negb_andb.
    split; intros ->; reflexivity.
  - intros f Hf. unfold onopen. rewrite Hf.
    rewrite bool_decide_eq_true_2 by eauto. simpl.
    by destruct (f response).
  - intros s' H. unfold onopen in H.
    destruct (negb _ && _); [discriminate H|].
    destruct (match optional onOpen r with Some f => f response | None => Resolved end);
      [|discriminate H].
    injection H as <-. done.
Qed.

Lemma onopen_validation_witness :
  onopen (noConfig testURL) capitals closedWithId
  = inr (onopenResume closedWithId)
  ∧ onopen (noConfig testURL) notFound closedWithId
    = inl (JOpenError (openErrorMessage notFound) notFound)
  ∧ onopen pendingOnOpen notFound closedWithId
    = inr (onopenResume closedWithId).
Proof.
  destruct (proj1 (onopen_validation (noConfig testURL) capitals closedWithId))
    as [Hacc _]; [reflexivity|].
  destruct (proj1 (onopen_validation (noConfig testURL) notFound closedWithId))
    as [_ Hrej]; [reflexivity|].
  pose proof (proj1 (proj2 (onopen_validation pendingOnOpen notFound closedWithId))
                (λ _, Resolved) eq_refl) as Hown.
  split; [apply Hacc; vm_compute; reflexivity|].
  split; [apply Hrej; vm_compute; reflexivity|].
  exact Hown.
Defined.

(** ** Visibility *)

Lemma abort_tracked (s : Session) (i : nat) (e : Exchange) :
  abortController s = Some i → exchanges s !! i = Some e →
  exchanges (abort s) !! i = Some (set_ex_aborted true e).
Proof.
  intros Hc He. unfold abort. rewrite Hc. simpl.
  by rewrite list_lookup_alter_eq, He.
Qed.

(** [abort] touches the exchanges only. *)
Lemma abort_eq (s : Session) : abort s = set_exchanges (exchanges (abort s)) s.
Proof. unfold abort. destruct (abortController s); by destruct s. Qed.

Lemma abort_length (s : Session) :
  length (exchanges (abort s)) = length (exchanges s).
Proof.
  unfold abort. destruct (abortController s); simpl; [|done].
  apply length_alter.
Qed.

(** C8: the listener exists only when [openWhenHidden] is [false].  Then, on
    a change to hidden, the tracked exchange is aborted (leaving none in
    flight in a session reached from a mount) and the session is CLOSED; [explicitlyOpen] is kept, no policy is called, no timeout is
    created or cleared and no exchange is started.  On a change to visible
    the listener calls open() when [explicitlyOpen] is true and does nothing
    otherwise; after a suspension that open() starts an exchange whose
    headers are built from the [lastEventId] recorded before. *)
Theorem visibility_gating (w : World) :
  (openWhenHiddenIsFalse (current w) = false →
     ∀ v, step w (VisibilityChange v) = Some w)
  ∧ (openWhenHiddenIsFalse (current w) = true →
     (∃ w', step w (VisibilityChange hiddenState) = Some w'
        ∧ readyState (session w') = CLOSED
        ∧ hidden (session w') = true
        ∧ explicitlyOpen (session w') = explicitlyOpen (session w)
        ∧ policyCalls (session w') = policyCalls (session w)
        ∧ timeouts (session w') = timeouts (session w)
        ∧ retryTimeoutId (session w') = retryTimeoutId (session w)
        ∧ nextTimeoutId (session w') = nextTimeoutId (session w)
        ∧ lastEventId (session w') = lastEventId (session w)
        ∧ errorRetries (session w') = errorRetries (session w)
        ∧ (∀ i e, abortController (session w) = Some i →
                  exchanges (session w) !! i = Some e →
                  exchanges (session w') !! i = Some (set_ex_aborted true e))
        ∧ (wellTracked (session w) → noneInFlight (exchanges (session w')))
        ∧ length (exchanges (session w')) = length (exchanges (session w)))
     ∧ (explicitlyOpen (session w) = false →
        step w (VisibilityChange visible)
        = Some (with_session (set_hidden false (session w)) w))
     ∧ (explicitlyOpen (session w) = true →
        step w (VisibilityChange visible)
        = Some (with_session
                  (open (mounted w) (set_hidden false (session w))) w))
     ∧ (explicitlyOpen (session w) = true →
        ∃ w'' e,
          run w [VisibilityChange hiddenState; VisibilityChange visible]
          = Some w''
          ∧ readyState (session w'') = CONNECTING
          ∧ length (exchanges (session w'')) = S (length (exchanges (session w)))
          ∧ last (exchanges (session w'')) = Some e
          ∧ ex_aborted e = false
          ∧ ex_headers e = requestHeaders (mounted w) (session w)
          ∧ (∀ i, lastEventId (session w) = Some i → i ≠ "" →
                  callerHeaders (mounted w) !! "Last-Event-ID" = None →
                  ex_headers e !! "Last-Event-ID" = Some i))).
Proof.
  split.
  - intros Hoff v. simpl. by rewrite Hoff.
  - intros Hon. split; [|split; [|split]].
    + eexists. split; [simpl; rewrite Hon; reflexivity|].
      unfold onVisibilityChange. simpl.
      repeat split; try (rewrite abort_eq; reflexivity).
      * intros i e Hc He.
        by apply (abort_tracked (set_hidden true (session w))).
      * apply (abort_noneInFlight (set_hidden true (session w))).
      * apply (abort_length (set_hidden true (session w))).
    + intros Hno. simpl. rewrite Hon. unfold onVisibilityChange. simpl.
      by rewrite Hno.
    + intros Hyes. simpl. rewrite Hon. unfold onVisibilityChange. simpl.
      by rewrite Hyes.
    + intros Hyes.
      set (h := onVisibilityChange (mounted w) hiddenState (session w)).
      assert (h = setReadyState CLOSED
                    (set_exchanges
                       (exchanges (abort (set_hidden true (session w))))
                       (set_hidden true (session w)))) as Hh.
      { unfold h, onVisibilityChange. simpl. by rewrite abort_eq at 1. }
      assert (run w [VisibilityChange hiddenState; VisibilityChange visible]
              = Some (with_session
                        (_startStream (mounted w)
                           (set_explicitlyOpen true (set_hidden false h))) w))
        as Hrun.
      { simpl. rewrite Hon. simpl. rewrite Hon. fold h.
        unfold onVisibilityChange. simpl.
        assert (explicitlyOpen (abort (set_hidden true (session w))) = true)
          as -> by (by rewrite abort_eq).
        rewrite open_closed; [done|]. by rewrite Hh. }
      clearbody h. eexists _, _. split; [exact Hrun|].
      split; [done|]. split.
      { simpl. rewrite length_app. simpl. rewrite Hh. simpl.
        rewrite (abort_length (set_hidden true (session w))). simpl. lia. }
      split; [apply last_snoc|]. split; [done|].
      assert (ex_headers
                {| ex_input := input (mounted w);
                   ex_headers :=
                     requestHeaders (mounted w)
                       (setReadyState CONNECTING
                          (set_abortController (Some (length (exchanges h)))
                             (set_explicitlyOpen true (set_hidden false h))));
                   ex_rest := restOf (mounted w); ex_render := mounted w;
                   ex_aborted := false; ex_phase := Fetching |}
              = requestHeaders (mounted w) (session w)) as Hhd.
      { simpl. apply requestHeaders_ext. by rewrite Hh. }
      split; [exact Hhd|].
      intros i Hi Hne Hc.
      pose proof (requestHeaders_injected (mounted w) (session w) i Hi Hne Hc)
        as Hinj.
      rewrite <- Hhd in Hinj. exact Hinj.
Qed.

Lemma gatedOpen_reached :
  run (mount gated)
    [CallOpen; ResponseArrives 0 okResponse; MessageArrives 0 frameA1]
  = Some gatedOpen.
Proof. vm_compute; reflexivity. Qed.

Lemma visibility_gating_witness :
  step (mount (noConfig testURL)) (VisibilityChange hiddenState)
  = Some (mount (noConfig testURL))
  ∧ (∃ w', step gatedOpen (VisibilityChange hiddenState) = Some w'
           ∧ readyState (session w') = CLOSED
           ∧ explicitlyOpen (session w') = true
           ∧ noneInFlight (exchanges (session w')))
  ∧ ∃ w'' e,
      run gatedOpen [VisibilityChange hiddenState; VisibilityChange visible]
      = Some w''
      ∧ last (exchanges (session w'')) = Some e
      ∧ ex_headers e !! "Last-Event-ID" = Some "a1".
Proof.
  split.
  - apply (proj1 (visibility_gating (mount (noConfig testURL)))).
    vm_compute; reflexivity.
  - destruct (proj2 (visibility_gating gatedOpen))
      as (Hsuspend & _ & _ & Hresume); [vm_compute; reflexivity|].
    split.
    + destruct Hsuspend
        as (w' & Hstep & Hst & _ & Heo & _ & _ & _ & _ & _ & _ & _ & Hn & _).
      exists w'. split; [exact Hstep|]. split; [exact Hst|].
      split; [rewrite Heo; vm_compute; reflexivity|].
      apply Hn. exact (reachable_wellTracked _ _ _ gatedOpen_reached).
    + destruct Hresume as (w'' & e & Hrun & _ & _ & Hlast & _ & _ & Hinj);
        [vm_compute; reflexivity|].
      exists w'', e. split; [exact Hrun|]. split; [exact Hlast|].
      apply (Hinj "a1");
        [vm_compute; reflexivity | discriminate | vm_compute; reflexivity].
Defined.

(** ** Reconfiguration *)

(** The effect never starts a stream for a render whose [openWhenHidden] is
    [false]: its condition tests the ref object [hidden], which is truthy
    whether or not the page is hidden. *)
Lemma streamEffect_gated (r : Render) (s : Session) :
  openWhenHiddenIsFalse r = true → streamEffect r s = s.
Proof.
  intros H. unfold streamEffect, hiddenRefIsTruthy. rewrite H. simpl.
  by rewrite andb_false_r.
Qed.

(** X12: with [openWhenHidden] absent or true, a re-run of the effect on an
    explicitly open session aborts the tracked exchange, clears the tracked
    timeout and starts one exchange with the new target and options. *)
Lemma rerender_restarts (r : Render) (s : Session) :
  openWhenHiddenIsFalse r = false → explicitlyOpen s = true →
  readyState (streamEffect r (streamEffectCleanup s)) = CONNECTING
  ∧ (∀ i e, abortController s = Some i → exchanges s !! i = Some e →
            exchanges (streamEffect r (streamEffectCleanup s)) !! i
            = Some (set_ex_aborted true e))
  ∧ (∀ t, retryTimeoutId s = Some t → t ≠ 0 →
          timeouts (streamEffect r (streamEffectCleanup s)) !! t = None)
  ∧ ∃ e, exchanges (streamEffect r (streamEffectCleanup s))
         = exchanges (abort s) ++ [e]
         ∧ ex_input e = input r
         ∧ ex_rest e = restOf r
         ∧ ex_headers e = requestHeaders r s
         ∧ ex_aborted e = false.
Proof.
  intros Hoff Hopen.
  assert (streamEffectCleanup s
          = set_retryTimeoutId (retryTimeoutId (streamEffectCleanup s))
              (set_timeouts (timeouts (streamEffectCleanup s))
                 (set_exchanges (exchanges (abort s)) s))) as Hc.
  { unfold streamEffectCleanup.
    etrans; [apply clearRetryTimeout_eq|].
    do 2 f_equal. apply abort_eq. }
  assert (streamEffect r (streamEffectCleanup s)
          = _startStream r (streamEffectCleanup s)) as ->.
  { unfold streamEffect. rewrite Hoff, Hc. simpl. by rewrite Hopen. }
  split; [done|]. split.
  { intros i e Hi He. rewrite startStream_exchanges, Hc. simpl.
    rewrite lookup_app_l.
    - by apply abort_tracked.
    - rewrite abort_length. by apply lookup_lt_Some in He. }
  split.
  { intros t Ht Hne. simpl.
    unfold streamEffectCleanup, _clearRetryTimeout, clearTimeout.
    rewrite abort_eq. simpl. rewrite Ht.
    destruct t as [|t]; [done|]. simpl. apply lookup_delete_eq. }
  eexists. split; [rewrite startStream_exchanges, Hc; reflexivity|].
  simpl. repeat split.
Qed.

(** C9 (the code at the failing input): the session honours visibility, the
    page is visible, the stream is open and explicitly so; the target
    changes.  The cleanup aborts the exchange, the effect starts none: one
    exchange in all, aborted, and [readyState] still reads OPEN. *)
Theorem rerender_not_restarted_when_gated :
  ∃ w w', run (mount gated) [CallOpen; ResponseArrives 0 okResponse] = Some w
    ∧ readyState (session w) = OPEN
    ∧ explicitlyOpen (session w) = true
    ∧ hidden (session w) = false
    ∧ step w (Rerender gatedNewTarget) = Some w'
    ∧ ex_aborted <$> exchanges (session w') = [true]
    ∧ ex_input <$> exchanges (session w') = [testURL]
    ∧ readyState (session w') = OPEN.
Proof.
  do 2 eexists. split; [vm_compute; reflexivity|].
  do 3 (split; [vm_compute; reflexivity|]).
  split; [vm_compute; reflexivity|].
  repeat split; vm_compute; reflexivity.
Qed.

(** The restart itself goes to the new target; the retry that follows is
    run by the [open] of the first render and goes to the first target. *)
Example retry_uses_first_render :
  ∃ w, run (mount (noConfig testURL)) retryAfterNewTarget = Some w
    ∧ ex_input <$> exchanges (session w)
      = [testURL; "http://localhost:5173/api/sse?channel=2"; testURL]
    ∧ ex_aborted <$> exchanges (session w) = [true; false; false].
Proof.
  eexists. split; [vm_compute; reflexivity|].
  split; vm_compute; reflexivity.
Qed.

(** ** The negotiated interval persists *)

Lemma handleRetry_retryInterval (r : Render) (err : JsValue) (s : Session) :
  retryInterval (_handleRetry r err s) = retryInterval s.
Proof. handler_cases; done. Qed.

(** No event other than a message frame changes [retryInterval]. *)
Lemma step_retryInterval (w w' : World) (e : Event) :
  step w e = Some w' →
  (∀ i ev, e ≠ MessageArrives i ev) →
  retryInterval (session w') = retryInterval (session w).
Proof.
  intros Hstep Hne.
  destruct e as [| |r|v|t|i response|i|i ev|i|i err]; simpl in Hstep;
    try (by destruct (Hne i ev));
    handler_cases; done.
Qed.

(** * Further properties *)

(** ** Exchanges *)

(** X1: in every session reached from a mount, an exchange in flight is the
    one whose controller the session holds; so at most one exchange is in
    flight, and none while the session reads CLOSED. *)
Theorem one_exchange_in_flight (r : Render) (es : list Event) (w : World) :
  run (mount r) es = Some w →
  (∀ i e, exchanges (session w) !! i = Some e → inFlight e = true →
          abortController (session w) = Some i)
  ∧ (∀ i j ei ej, exchanges (session w) !! i = Some ei →
                  exchanges (session w) !! j = Some ej →
                  inFlight ei = true → inFlight ej = true → i = j)
  ∧ (readyState (session w) = CLOSED →
     ∀ i e, exchanges (session w) !! i = Some e → inFlight e = false).
Proof.
  intros Hrun. destruct (reachable_wellTracked r es w Hrun) as [HI HJ].
  split; [exact HI|]. split; [|exact HJ].
  intros i j ei ej Hi Hj Hfi Hfj.
  pose proof (HI i ei Hi Hfi). pose proof (HI j ej Hj Hfj). congruence.
Qed.

Lemma one_exchange_in_flight_witness :
  (∀ i e, exchanges (session gatedOpen) !! i = Some e → inFlight e = true →
          abortController (session gatedOpen) = Some i)
  ∧ (∀ i j ei ej, exchanges (session gatedOpen) !! i = Some ei →
                  exchanges (session gatedOpen) !! j = Some ej →
                  inFlight ei = true → inFlight ej = true → i = j)
  ∧ (readyState (session gatedOpen) = CLOSED →
     ∀ i e, exchanges (session gatedOpen) !! i = Some e → inFlight e = false).
Proof. exact (one_exchange_in_flight _ _ _ gatedOpen_reached). Defined.

Lemma sameRequest_refl (x : Exchange) : sameRequest x x.
Proof. by repeat split. Qed.

Lemma sameRequest_trans (x y z : Exchange) :
  sameRequest x y → sameRequest y z → sameRequest x z.
Proof.
  intros (? & ? & ? & ? & ? & ?) (? & ? & ? & ? & ? & ?).
  repeat split; try congruence; auto.
Qed.

Lemma kept_refl (xs : list Exchange) : kept xs xs.
Proof. intros i x Hx. exists x. split; [done|]. apply sameRequest_refl. Qed.

Lemma kept_trans (xs ys zs : list Exchange) :
  kept xs ys → kept ys zs → kept xs zs.
Proof.
  intros H1 H2 i x Hx. destruct (H1 i x Hx) as (y & Hy & Hxy).
  destruct (H2 i y Hy) as (z & Hz & Hyz). exists z. split; [done|].
  by eapply sameRequest_trans.
Qed.

Lemma kept_app (xs ys l : list Exchange) : kept xs ys → kept xs (ys ++ l).
Proof.
  intros H i x Hx. destruct (H i x Hx) as (y & Hy & Hxy). exists y.
  split; [|done]. by apply lookup_app_l_Some.
Qed.

Lemma kept_alter_aborted (xs ys : list Exchange) (j : nat) :
  kept xs ys → kept xs (alter (set_ex_aborted true) j ys).
Proof.
  intros H i x Hx. destruct (H i x Hx) as (y & Hy & Hxy).
  rewrite list_lookup_alter. case_decide.
  - subst. rewrite Hy. eexists. split; [done|].
    destruct Hxy as (? & ? & ? & ? & ? & ?). by repeat split.
  - by exists y.
Qed.

Lemma kept_alter_phase (xs : list Exchange) (j : nat) (p : Phase) :
  (∀ y, xs !! j = Some y → ex_phase y = Finished → p = Finished) →
  kept xs (alter (set_ex_phase p) j xs).
Proof.
  intros Hp i x Hx. rewrite list_lookup_alter. case_decide.
  - subst. rewrite Hx. eexists. split; [done|]. repeat split; try done.
    simpl. by apply Hp.
  - exists x. split; [done|]. apply sameRequest_refl.
Qed.

Ltac kept_goal :=
  repeat (apply kept_app || apply kept_alter_aborted);
  first
    [ apply kept_refl
    | apply kept_alter_phase; intros; simplify_eq; congruence ].

Lemma step_kept (w w' : World) (e : Event) :
  step w e = Some w' → kept (exchanges (session w)) (exchanges (session w')).
Proof.
  intros Hstep.
  destruct e as [| |r|v|t|i response|i|i ev|i|i err]; unfold step in Hstep.
  all: unfold onmessage in *.
  all: handler_cases; try done.
  all: kept_goal.
Qed.

Lemma run_kept (w w' : World) (es : list Event) :
  run w es = Some w' → kept (exchanges (session w)) (exchanges (session w')).
Proof.
  revert w. induction es as [|e es IH]; intros w Hrun; simpl in Hrun.
  - simplify_eq. apply kept_refl.
  - destruct (step w e) as [w1|] eqn:Hs; [|done].
    eapply kept_trans; [by eapply step_kept | by apply IH].
Qed.

(** X2: whatever happens, an exchange once started keeps its target, its
    headers and its options; once aborted it stays aborted, and once finished
    it stays finished.  A change of settings never reaches a running
    request. *)
Theorem requests_are_never_patched
    (w w' : World) (es : list Event) (i : nat) (x : Exchange) :
  run w es = Some w' → exchanges (session w) !! i = Some x →
  ∃ x', exchanges (session w') !! i = Some x'
        ∧ ex_input x' = ex_input x
        ∧ ex_headers x' = ex_headers x
        ∧ ex_rest x' = ex_rest x
        ∧ (ex_aborted x = true → ex_aborted x' = true)
        ∧ (ex_phase x = Finished → ex_phase x' = Finished).
Proof.
  intros Hrun Hx. destruct (run_kept w w' es Hrun i x Hx)
    as (x' & Hx' & Hi & Hh & Hr & _ & Ha & Hp).
  by exists x'.
Qed.

Lemma retryPending_reached :
  run (mount (noConfig testURL)) [ExchangeFails 0 (JError "Failed to fetch")]
  = Some retryPending.
Proof. vm_compute; reflexivity. Qed.

Lemma requests_are_never_patched_witness :
  ∃ x', exchanges (session retryPending) !! 0 = Some x'
        ∧ ex_input x' = testURL.
Proof.
  destruct (requests_are_never_patched (mount (noConfig testURL)) retryPending
              [ExchangeFails 0 (JError "Failed to fetch")] 0
              {| ex_input := testURL; ex_headers := ∅; ex_rest := ∅;
                 ex_render := noConfig testURL; ex_aborted := false;
                 ex_phase := Fetching |})
    as (x' & Hx' & Hin & _);
    [exact retryPending_reached | vm_compute; reflexivity |].
  exists x'. split; [exact Hx' | exact Hin].
Defined.

Ltac started_goal :=
  first
    [ left; simpl; rewrite ?length_alter; reflexivity
    | right; eexists; split; [reflexivity|];
      simpl; rewrite ?length_app, ?length_alter, ?last_snoc; simpl;
      repeat split; lia ].

(** X3: an event starts at most one exchange, and only a call of open()
    (by the caller, by a timeout, by the return to visible) or a re-run of the
    stream effect starts one; no callback of the collaborator does.  The new
    exchange is tracked, the session is CONNECTING, and the request is built
    from the render of the first mount for open() and from the new render for
    the effect. *)
Theorem exchange_started_by (w w' : World) (e : Event) :
  step w e = Some w' →
  length (exchanges (session w')) = length (exchanges (session w))
  ∨ ∃ r, opener w e = Some r
         ∧ length (exchanges (session w')) = S (length (exchanges (session w)))
         ∧ last (exchanges (session w'))
           = Some {| ex_input := input r;
                     ex_headers := requestHeaders r (session w);
                     ex_rest := restOf r; ex_render := r;
                     ex_aborted := false; ex_phase := Fetching |}
         ∧ readyState (session w') = CONNECTING
         ∧ abortController (session w') = Some (length (exchanges (session w))).
Proof.
  intros Hstep.
  destruct e as [| |r|v|t|i response|i|i ev|i|i err]; unfold step in Hstep.
  all: unfold onmessage in *.
  all: handler_cases; try done.
  all: started_goal.
Qed.

Lemma exchange_started_by_witness :
  length (exchanges (session gatedConnecting))
  = length (exchanges (session (mount gated)))
  ∨ ∃ r, opener (mount gated) CallOpen = Some r
         ∧ length (exchanges (session gatedConnecting))
           = S (length (exchanges (session (mount gated))))
         ∧ last (exchanges (session gatedConnecting))
           = Some {| ex_input := input r;
                     ex_headers := requestHeaders r (session (mount gated));
                     ex_rest := restOf r; ex_render := r;
                     ex_aborted := false; ex_phase := Fetching |}
         ∧ readyState (session gatedConnecting) = CONNECTING
         ∧ abortController (session gatedConnecting)
           = Some (length (exchanges (session (mount gated)))).
Proof.
  apply (exchange_started_by (mount gated) gatedConnecting CallOpen).
  vm_compute; reflexivity.
Defined.

(** ** Timeouts and recorded ids *)

Ltac timers_goal :=
  unfold timersWellFormed in *; simpl in *;
  repeat match goal with
         | H : _ ∧ _ |- _ => destruct H
         end;
  repeat split;
  intros;
  repeat match goal with
         | H : <[_:=_]> _ !! _ = Some _ |- _ =>
             apply lookup_insert_Some in H as [[? ?]|[? ?]]
         | H : delete _ _ !! _ = Some _ |- _ =>
             apply lookup_delete_Some in H as [? ?]
         | H : ∅ !! _ = Some _ |- _ => rewrite lookup_empty in H; discriminate H
         end;
  simplify_eq;
  repeat match goal with
         | H : ∀ t ms, ?m !! t = Some ms → _, H' : ?m !! _ = Some _ |- _ =>
             apply H in H'
         | H : ∀ t, Some _ = Some t → _ |- _ => specialize (H _ eq_refl)
         | H : ∀ t, ?f = Some t → _, H' : ?f = Some _ |- _ => apply H in H'
         end;
  try lia.

(** The ids stay well formed in every event. *)
Lemma step_timersWellFormed (w w' : World) (e : Event) :
  timersWellFormed (session w) → step w e = Some w' →
  timersWellFormed (session w').
Proof.
  intros H Hstep.
  destruct e as [| |r|v|t|i response|i|i ev|i|i err]; unfold step in Hstep.
  all: handler_cases; try done.
  all: unfold onmessage in *; simplify_eq.
  all: timers_goal.
Qed.

Lemma run_timersWellFormed (w w' : World) (es : list Event) :
  timersWellFormed (session w) → run w es = Some w' →
  timersWellFormed (session w').
Proof.
  revert w. induction es as [|e es IH]; intros w H Hrun; simpl in Hrun.
  - by simplify_eq.
  - destruct (step w e) as [w1|] eqn:Hs; [|done].
    eapply IH; [|exact Hrun]. by eapply step_timersWellFormed.
Qed.

Lemma mount_timersWellFormed (r : Render) : timersWellFormed (session (mount r)).
Proof.
  unfold mount, streamEffect, _startStream. simpl. case_match; timers_goal.
Qed.

(** X4: in every session reached from a mount, the pending timeouts have
    positive ids below the next id: a new timeout never replaces a pending
    one, and [_clearRetryTimeout], whose test is the truthiness of the id,
    always cancels the timeout the session tracks. *)
Theorem timeout_ids_well_formed (r : Render) (es : list Event) (w : World) :
  run (mount r) es = Some w →
  (∀ t ms, timeouts (session w) !! t = Some ms →
           1 ≤ t < nextTimeoutId (session w))
  ∧ timeouts (session w) !! nextTimeoutId (session w) = None
  ∧ retryTimeoutId (_clearRetryTimeout (session w)) = None
  ∧ (∀ t, retryTimeoutId (session w) = Some t →
          timeouts (_clearRetryTimeout (session w)) !! t = None).
Proof.
  intros Hrun.
  destruct (run_timersWellFormed _ _ _ (mount_timersWellFormed r) Hrun)
    as (Ht & Hid & Hn).
  split; [exact Ht|]. split.
  { destruct (timeouts (session w) !! nextTimeoutId (session w)) as [ms|] eqn:E;
      [|done]. apply Ht in E. lia. }
  unfold _clearRetryTimeout, clearTimeout.
  destruct (retryTimeoutId (session w)) as [t|] eqn:E.
  - destruct (Hid t eq_refl) as [Hge _]. destruct t as [|t]; [lia|]. simpl.
    split; [done|]. intros t' [= <-]. apply lookup_delete_eq.
  - split; [done|]. intros t' [=].
Qed.

Lemma timeout_ids_well_formed_witness :
  timeouts (session retryPending) !! nextTimeoutId (session retryPending) = None
  ∧ retryTimeoutId (_clearRetryTimeout (session retryPending)) = None
  ∧ timeouts (_clearRetryTimeout (session retryPending)) !! 1 = None.
Proof.
  destruct (timeout_ids_well_formed _ _ _ retryPending_reached)
    as (_ & Hfresh & Hnone & Hcleared).
  split; [exact Hfresh|]. split; [exact Hnone|].
  apply Hcleared. vm_compute; reflexivity.
Defined.

Lemma onmessage_lastEventId_nonempty
    (r : Render) (ev : FetchEventSourceMessage) (s : Session) :
  lastEventId (onmessage r ev s).1 ≠ Some "".
Proof.
  unfold onmessage. simpl.
  assert (∀ s', lastEventId
            match ev_retry ev with
            | Some n => if truthyZ n then set_retryInterval n s' else s'
            | None => s'
            end = lastEventId s') as ->.
  { intros s'. by repeat case_match. }
  simpl. destruct (String.eqb_spec (ev_id ev) ""); congruence.
Qed.

Lemma step_frame_fields (w w' : World) (e : Event) :
  step w e = Some w' →
  (∀ i ev, e ≠ MessageArrives i ev) →
  lastEventId (session w') = lastEventId (session w)
  ∧ retryInterval (session w') = retryInterval (session w)
  ∧ eventMessage (session w') = eventMessage (session w).
Proof.
  intros Hstep Hne.
  destruct e as [| |r|v|t|i response|i|i ev|i|i err]; simpl in Hstep;
    try (by destruct (Hne i ev));
    handler_cases; done.
Qed.

Lemma step_lastEventId_nonempty (w w' : World) (e : Event) :
  lastEventId (session w) ≠ Some "" → step w e = Some w' →
  lastEventId (session w') ≠ Some "".
Proof.
  intros H Hstep.
  destruct e as [| |r|v|t|i response|i|i ev|i|i err];
    try (by destruct (step_frame_fields w w' _ Hstep) as (-> & _)).
  unfold step in Hstep.
  destruct (live i (session w)) as [x|]; [|done].
  destruct (ex_phase x); try done.
  pose proof (onmessage_lastEventId_nonempty (ex_render x) ev (session w)) as Hm.
  destruct (onmessage (ex_render x) ev (session w)) as [s' [err|]];
    simplify_eq; simpl in *; [|done].
  assert (lastEventId (oncatch (ex_render x) err (setPhase i Finished s'))
          = lastEventId s') as ->; [|done].
  handler_cases; done.
Qed.

Lemma run_lastEventId_nonempty (w w' : World) (es : list Event) :
  lastEventId (session w) ≠ Some "" → run w es = Some w' →
  lastEventId (session w') ≠ Some "".
Proof.
  revert w. induction es as [|e es IH]; intros w H Hrun; simpl in Hrun.
  - by simplify_eq.
  - destruct (step w e) as [w1|] eqn:Hs; [|done].
    eapply IH; [|exact Hrun]. by eapply step_lastEventId_nonempty.
Qed.

Lemma mount_lastEventId (r : Render) : lastEventId (session (mount r)) = None.
Proof. unfold mount, streamEffect. simpl. by case_match. Qed.

(** X5: in every session reached from a mount the recorded id is never the
    empty string; so the truthiness test of [requestHeaders] loses no id, and
    [Last-Event-ID] is sent whenever an id is recorded and the caller supplies
    none. *)
Theorem recorded_id_is_sent (r : Render) (es : list Event) (w : World) :
  run (mount r) es = Some w →
  lastEventId (session w) ≠ Some ""
  ∧ ∀ r' i, lastEventId (session w) = Some i →
            callerHeaders r' !! "Last-Event-ID" = None →
            requestHeaders r' (session w) !! "Last-Event-ID" = Some i.
Proof.
  intros Hrun.
  assert (lastEventId (session w) ≠ Some "") as Hne.
  { eapply run_lastEventId_nonempty; [|exact Hrun].
    by rewrite mount_lastEventId. }
  split; [exact Hne|]. intros r' i Hi Hc.
  apply requestHeaders_injected; [done| |done]. congruence.
Qed.

Lemma recorded_id_is_sent_witness :
  lastEventId (session gatedOpen) ≠ Some ""
  ∧ requestHeaders gated (session gatedOpen) !! "Last-Event-ID" = Some "a1".
Proof.
  destruct (recorded_id_is_sent _ _ _ gatedOpen_reached) as [Hne Hsent].
  split; [exact Hne|].
  apply Hsent; vm_compute; reflexivity.
Defined.

(** X6: [lastEventId], [retryInterval] and [eventMessage] change in no event
    but the arrival of a frame. *)
Theorem only_frames_change_frame_fields (w w' : World) (e : Event) :
  step w e = Some w' →
  (∀ i ev, e ≠ MessageArrives i ev) →
  lastEventId (session w') = lastEventId (session w)
  ∧ retryInterval (session w') = retryInterval (session w)
  ∧ eventMessage (session w') = eventMessage (session w).
Proof. apply step_frame_fields. Qed.

Lemma only_frames_change_frame_fields_witness :
  lastEventId (session (with_session (close (session gatedOpen)) gatedOpen))
  = lastEventId (session gatedOpen)
  ∧ retryInterval (session (with_session (close (session gatedOpen)) gatedOpen))
    = retryInterval (session gatedOpen)
  ∧ eventMessage (session (with_session (close (session gatedOpen)) gatedOpen))
    = eventMessage (session gatedOpen).
Proof.
  apply (only_frames_change_frame_fields gatedOpen _ CallClose);
    [reflexivity | intros i ev; discriminate].
Defined.

(** ** What each event may change *)

(** X7: [explicitlyOpen] is turned off by close() alone, and turned on only
    by open() called by the caller or by a retry timeout. *)
Theorem explicitlyOpen_switches (w w' : World) (e : Event) :
  step w e = Some w' →
  (explicitlyOpen (session w) = true → explicitlyOpen (session w') = false →
   e = CallClose)
  ∧ (explicitlyOpen (session w) = false → explicitlyOpen (session w') = true →
     e = CallOpen ∨ ∃ t, e = TimeoutFires t).
Proof.
  intros Hstep.
  destruct e as [| |r|v|t|i response|i|i ev|i|i err]; unfold step in Hstep.
  all: unfold onmessage in *.
  all: handler_cases; try done.
  all: split; intros; try congruence; eauto.
Qed.

Lemma explicitlyOpen_switches_witness :
  (explicitlyOpen (session (mount gated)) = true →
   explicitlyOpen (session gatedConnecting) = false → CallOpen = CallClose)
  ∧ (explicitlyOpen (session (mount gated)) = false →
     explicitlyOpen (session gatedConnecting) = true →
     CallOpen = CallOpen ∨ ∃ t, CallOpen = TimeoutFires t).
Proof.
  apply (explicitlyOpen_switches (mount gated) gatedConnecting CallOpen).
  vm_compute; reflexivity.
Defined.

(** X8: the session comes to read OPEN only when [onopen] completes, and
    [errorRetries] is 0 at that moment. *)
Theorem open_only_after_onopen (w w' : World) (e : Event) :
  step w e = Some w' →
  readyState (session w') = OPEN →
  readyState (session w) = OPEN
  ∨ (errorRetries (session w') = 0
     ∧ ∃ i, (∃ response, e = ResponseArrives i response) ∨ e = OnOpenSettles i).
Proof.
  intros Hstep Hopen.
  destruct e as [| |r|v|t|i response|i|i ev|i|i err]; unfold step in Hstep.
  all: unfold onmessage in *.
  all: handler_cases; try done.
  all: try congruence.
  all: try (by left).
  all: right; split; [done|]; eauto.
Qed.

Lemma open_only_after_onopen_witness :
  readyState (session (mount (noConfig testURL))) = OPEN
  ∨ (errorRetries (session streamOpen) = 0
     ∧ ∃ i, (∃ response, ResponseArrives 0 okResponse = ResponseArrives i response)
            ∨ ResponseArrives 0 okResponse = OnOpenSettles i).
Proof.
  apply (open_only_after_onopen (mount (noConfig testURL)) streamOpen
           (ResponseArrives 0 okResponse));
    vm_compute; reflexivity.
Defined.



(** ** The commands *)

Lemma alter_aborted_twice (xs : list Exchange) (i : nat) :
  alter (set_ex_aborted true) i (alter (set_ex_aborted true) i xs)
  = alter (set_ex_aborted true) i xs.
Proof. rewrite list_alter_alter_eq. by apply list_alter_ext. Qed.

(** X10: open() twice is open() once, and close() twice is close() once. *)
Theorem commands_idempotent (r : Render) (s : Session) :
  open r (open r s) = open r s ∧ close (close s) = close s.
Proof.
  split.
  - unfold open. simpl. destruct (readyState s) eqn:E; simpl; rewrite ?E;
      by destruct s.
  - unfold close, _clearRetryTimeout, clearTimeout, abort.
    destruct s as [[c|] le [[|t]|] eo er ri hi rs em xs tm nt pc];
      cbv [setReadyState set_retryTimeoutId set_timeouts set_exchanges
           set_explicitlyOpen abortController retryTimeoutId exchanges
           timeouts lastEventId explicitlyOpen errorRetries retryInterval
           hidden readyState eventMessage nextTimeoutId policyCalls
           truthyNat Nat.eqb negb];
      rewrite ?alter_aborted_twice; reflexivity.
Qed.

Lemma run_idle (w w' : World) (es : list Event) :
  idle (session w) → CallOpen ∉ es → run w es = Some w' →
  idle (session w')
  ∧ length (exchanges (session w')) = length (exchanges (session w)).
Proof.
  revert w. induction es as [|e es IH]; intros w Hidle Hno Hrun;
    simpl in Hrun.
  - by simplify_eq.
  - destruct (step w e) as [w1|] eqn:Hs; [|done].
    apply not_elem_of_cons in Hno as [Hne Hno].
    destruct (idle_until_open w w1 e Hidle) as [Hidle1 Hlen]; [done..|].
    destruct (IH w1 Hidle1 Hno Hrun) as [Hidle' Hlen'].
    split; [done|]. congruence.
Qed.

(** X11: when the timeout the session tracks is the only one pending,
    close() leaves nothing behind: whatever follows, as long as the caller
    does not call open(), no exchange is started, no timeout is pending and
    [explicitlyOpen] stays false. *)
Theorem close_then_at_rest (w w' : World) (es : list Event) :
  wellTracked (session w) → onlyTrackedTimeout (session w) →
  CallOpen ∉ es → run w (CallClose :: es) = Some w' →
  length (exchanges (session w')) = length (exchanges (session w))
  ∧ explicitlyOpen (session w') = false
  ∧ timeouts (session w') = ∅
  ∧ ∀ i e, exchanges (session w') !! i = Some e → inFlight e = false.
Proof.
  intros Hw Ht Hno Hrun. simpl in Hrun.
  destruct (run_idle (with_session (close (session w)) w) w' es)
    as [(Heo & Hto & Hn) Hlen]; try done.
  { by apply close_idle. }
  repeat split; try done. rewrite Hlen. simpl.
  unfold close, _clearRetryTimeout, clearTimeout, abort.
  destruct (session w) as [[c|] ? [[|t]|] ? ? ? ? ? ? ? ? ? ?]; simpl;
    by rewrite ?length_alter.
Qed.

Lemma retryPending_onlyTrackedTimeout :
  onlyTrackedTimeout (session retryPending).
Proof.
  assert (timeouts (session retryPending) = {[ 1 := 1000%Z ]}) as Ht
    by (vm_compute; reflexivity).
  intros t ms H. rewrite Ht in H. apply lookup_singleton_Some in H as [<- _].
  split; [vm_compute; reflexivity | discriminate].
Qed.

Lemma close_then_at_rest_witness :
  length (exchanges (session retryClosed))
  = length (exchanges (session retryPending))
  ∧ explicitlyOpen (session retryClosed) = false
  ∧ timeouts (session retryClosed) = ∅.
Proof.
  destruct (close_then_at_rest retryPending retryClosed
              [Rerender gatedNewTarget; VisibilityChange visible])
    as (Hlen & Heo & Hto & _).
  - exact (reachable_wellTracked _ _ _ retryPending_reached).
  - exact retryPending_onlyTrackedTimeout.
  - intros Hin.
    repeat (apply elem_of_cons in Hin as [Hin|Hin]; [discriminate Hin|]).
    by apply elem_of_nil in Hin.
  - vm_compute; reflexivity.
  - split; [exact Hlen|]. split; [exact Heo | exact Hto].
Defined.

Lemma rerender_restarts_witness :
  readyState (streamEffect (noConfig "http://localhost:5173/api/sse?channel=2")
                (streamEffectCleanup busySession)) = CONNECTING
  ∧ timeouts (streamEffect (noConfig "http://localhost:5173/api/sse?channel=2")
                (streamEffectCleanup busySession)) !! 1 = None.
Proof.
  destruct (rerender_restarts (noConfig "http://localhost:5173/api/sse?channel=2")
              busySession eq_refl eq_refl) as (Hst & _ & Hto & _).
  split; [exact Hst|]. apply Hto; [vm_compute; reflexivity | discriminate].
Defined.

(** X13: a retry timeout that fires on a CLOSED session starts an exchange
    to the target of the first mount and sets [explicitlyOpen], whatever
    [hidden] and [explicitlyOpen] were: a suspension by the visibility gate
    does not hold a pending retry back. *)
Theorem timeout_reopens_closed_session (w : World) (t : nat) (ms : Z) :
  timeouts (session w) !! t = Some ms →
  readyState (session w) = CLOSED →
  ∃ w', step w (TimeoutFires t) = Some w'
        ∧ readyState (session w') = CONNECTING
        ∧ explicitlyOpen (session w') = true
        ∧ hidden (session w') = hidden (session w)
        ∧ timeouts (session w') !! t = None
        ∧ length (exchanges (session w')) = S (length (exchanges (session w)))
        ∧ (ex_input <$> last (exchanges (session w'))) = Some (input (mounted w)).
Proof.
  intros Ht Hst. eexists. unfold step. rewrite Ht. split; [reflexivity|].
  simpl. rewrite open_closed by done. simpl.
  rewrite lookup_delete_eq, length_app, last_snoc. simpl.
  repeat split; try done. lia.
Qed.

Lemma timeout_reopens_closed_session_witness :
  ∃ w', step retryPending (TimeoutFires 1) = Some w'
        ∧ readyState (session w') = CONNECTING
        ∧ length (exchanges (session w'))
          = S (length (exchanges (session retryPending))).
Proof.
  destruct (timeout_reopens_closed_session retryPending 1 1000)
    as (w' & Hstep & Hst & _ & _ & _ & Hlen & _);
    try (vm_compute; reflexivity).
  exists w'. split; [exact Hstep|]. split; [exact Hst | exact Hlen].
Defined.

(** ** Errors *)

Lemma handleRetry_falsy (r : Render) (err : JsValue) (s : Session) :
  truthy err = false → _handleRetry r err s = _handleRetry r JUndefined s.
Proof. intros H. unfold _handleRetry, consultPolicy. by rewrite H. Qed.

Lemma clearRetryTimeout_setReadyState (v : FetchEventSourceState) (s : Session) :
  _clearRetryTimeout (setReadyState v s) = setReadyState v (_clearRetryTimeout s).
Proof.
  unfold _clearRetryTimeout, clearTimeout.
  destruct s as [? ? [[|t]|] ? ? ? ? ? ? ? ? ? ?]; reflexivity.
Qed.

(** X14: an error with no [onError] to consult: the session is CLOSED, the
    tracked timeout is cleared, a retry is scheduled after [retryInterval]
    and [errorRetries] grows by one. *)
Theorem error_default_retry (r : Render) (err : JsValue) (s : Session) :
  truthy err = true → optional onError r = None →
  readyState (oncatch r err s) = CLOSED
  ∧ errorRetries (oncatch r err s) = S (errorRetries s)
  ∧ timeouts (oncatch r err s)
    = <[nextTimeoutId s := retryInterval s]> (timeouts (_clearRetryTimeout s))
  ∧ retryTimeoutId (oncatch r err s) = Some (nextTimeoutId s)
  ∧ policyCalls (oncatch r err s) = policyCalls s
  ∧ explicitlyOpen (oncatch r err s) = explicitlyOpen s.
Proof.
  intros Ht Hf. unfold oncatch, _handleRetry, consultPolicy. rewrite Ht, Hf.
  unfold _clearRetryTimeout, clearTimeout.
  destruct s as [? ? [[|t]|] ? ? ? ? ? ? ? ? ? ?]; simpl; done.
Qed.

Lemma error_default_retry_witness :
  readyState (oncatch (noConfig testURL) (JError "Failed to fetch") busySession)
  = CLOSED
  ∧ errorRetries
      (oncatch (noConfig testURL) (JError "Failed to fetch") busySession)
    = S (errorRetries busySession).
Proof.
  destruct (error_default_retry (noConfig testURL) (JError "Failed to fetch")
              busySession eq_refl eq_refl) as (H1 & H2 & _).
  split; [exact H1 | exact H2].
Defined.

(** X15: a falsy value thrown ([undefined], [null], [0], [""], [false]) is
    handled as a remote close after the tracked timeout is cleared: [onClose]
    is consulted, [onError] is not, and [errorRetries] stays. *)
Theorem falsy_error_handled_as_close (r : Render) (err : JsValue) (s : Session) :
  truthy err = false →
  oncatch r err s = onclose r (_clearRetryTimeout s)
  ∧ errorRetries (oncatch r err s) = errorRetries s
  ∧ (∀ e n d, CalledOnError e n d ∈ policyCalls (oncatch r err s) →
              CalledOnError e n d ∈ policyCalls s).
Proof.
  intros H. unfold oncatch, onclose.
  rewrite handleRetry_falsy, clearRetryTimeout_setReadyState by done.
  split; [done|].
  unfold _handleRetry, consultPolicy, _clearRetryTimeout, clearTimeout.
  destruct s as [? ? [[|t]|] ? ? ? ? ? ? ? ? ? ?]; simpl;
    destruct (optional onClose r) as [g|]; simpl; try destruct (g ()); simpl;
    (split; [done|]); intros e n d Hin; try done;
    apply elem_of_app in Hin as [Hin|Hin]; try done;
    apply list_elem_of_singleton in Hin; discriminate Hin.
Qed.

Lemma falsy_error_handled_as_close_witness :
  oncatch (noConfig testURL) JUndefined busySession
  = onclose (noConfig testURL) (_clearRetryTimeout busySession)
  ∧ errorRetries (oncatch (noConfig testURL) JUndefined busySession)
    = errorRetries busySession.
Proof.
  destruct (falsy_error_handled_as_close (noConfig testURL) JUndefined
              busySession eq_refl) as (Heq & Hn & _).
  split; [exact Heq | exact Hn].
Defined.

(** X16: a number returned by the policy is the delay of the retry it was
    asked about and leaves [retryInterval] as it was. *)
Theorem policy_interval_is_for_one_retry
    (r : Render) (err : JsValue) (s : Session) (ms : Z) :
  (consultPolicy r err s).1 = RNumber ms →
  timeouts (_handleRetry r err s) !! nextTimeoutId s = Some ms
  ∧ retryTimeoutId (_handleRetry r err s) = Some (nextTimeoutId s)
  ∧ retryInterval (_handleRetry r err s) = retryInterval s.
Proof.
  unfold _handleRetry, consultPolicy.
  destruct (truthy err).
  - destruct (optional onError r) as [f|]; simpl; [|done].
    intros ->. simpl. by rewrite lookup_insert_eq.
  - destruct (optional onClose r) as [g|]; simpl; [|done].
    intros ->. simpl. by rewrite lookup_insert_eq.
Qed.

Lemma policy_interval_is_for_one_retry_witness :
  timeouts (_handleRetry retriesInFive (JError "Failed to fetch") busySession)
    !! nextTimeoutId busySession = Some 5000%Z
  ∧ retryInterval
      (_handleRetry retriesInFive (JError "Failed to fetch") busySession)
    = retryInterval busySession.
Proof.
  destruct (policy_interval_is_for_one_retry retriesInFive
              (JError "Failed to fetch") busySession 5000 eq_refl)
    as (H1 & _ & H3).
  split; [exact H1 | exact H3].
Defined.

Lemma toLowerCase_length (a : string) :
  String.length (toLowerCase a) = String.length a.
Proof. induction a as [|c a IH]; simpl; [done|]. by rewrite IH. Qed.

Lemma length_append (a b : string) :
  String.length (a +:+ b) = String.length a + String.length b.
Proof. induction a as [|c a IH]; simpl; [done|]. by rewrite IH. Qed.

(** X17: the default validation compares the whole content type: a response
    without one, or with [text/event-stream] followed by anything (a charset
    parameter, say), is rejected with [FetchEventSourceOpenError]. *)
Theorem default_validation_is_exact
    (r : Render) (response : Response) (s : Session) :
  optional onOpen r = None →
  (contentType response = None ∨
   ∃ suffix, suffix ≠ ""
             ∧ contentType response = Some ("text/event-stream" +:+ suffix)) →
  onopen r response s = inl (JOpenError (openErrorMessage response) response).
Proof.
  intros Hnone Hct. unfold onopen. rewrite Hnone.
  rewrite bool_decide_eq_false_2 by (intros [? ?]; discriminate).
  assert (contentTypeMismatch response = true) as ->.
  { unfold contentTypeMismatch. destruct Hct as [->|(suffix & Hne & ->)]; [done|].
    apply negb_true_iff, String.eqb_neq. intros Heq.
    apply (f_equal String.length) in Heq.
    rewrite toLowerCase_length, length_append in Heq.
    destruct suffix; [done|]. simpl in Heq. lia. }
  by rewrite orb_true_r.
Qed.

Lemma default_validation_is_exact_witness :
  onopen (noConfig testURL) withCharset closedWithId
  = inl (JOpenError (openErrorMessage withCharset) withCharset).
Proof.
  apply default_validation_is_exact; [reflexivity|].
  right. exists "; charset=utf-8". split; [discriminate | reflexivity].
Defined.

(** X18: a response the default validation rejects closes the session and
    reaches the caller's [onError] once, with the [FetchEventSourceOpenError]
    that carries the response and with the current number of retries. *)
Theorem open_failure_reaches_onError
    (w : World) (i : nat) (x : Exchange) (response : Response)
    (f : JsValue → nat → RetryDecision) :
  live i (session w) = Some x → ex_phase x = Fetching →
  optional onOpen (ex_render x) = None →
  acceptedByDefault response = false →
  optional onError (ex_render x) = Some f →
  ∃ w', step w (ResponseArrives i response) = Some w'
        ∧ readyState (session w') = CLOSED
        ∧ policyCalls (session w')
          = policyCalls (session w)
              ++ [CalledOnError
                    (JOpenError (openErrorMessage response) response)
                    (errorRetries (session w))
                    (f (JOpenError (openErrorMessage response) response)
                       (errorRetries (session w)))].
Proof.
  intros Hl Hp Hopen Hrej Hf. eexists.
  unfold step. rewrite Hl, Hp, Hopen. split; [reflexivity|].
  unfold settleOnOpen.
  assert (onopen (ex_render x) response (session w)
          = inl (JOpenError (openErrorMessage response) response)) as ->.
  { unfold onopen. rewrite Hopen, contentTypeMismatch_spec.
    rewrite bool_decide_eq_false_2 by (intros [? ?]; discriminate).
    unfold acceptedByDefault in Hrej. unfold ok. simpl.
    rewrite <- negb_andb. by rewrite Hrej. }
  assert (ex_aborted x = false) as ->.
  { unfold live in Hl. destruct (exchanges (session w) !! i); [|done].
    destruct (ex_aborted e) eqn:E; by simplify_eq. }
  unfold oncatch, _handleRetry, consultPolicy. simpl. rewrite Hf.
  unfold _clearRetryTimeout, clearTimeout, setPhase.
  destruct (session w) as [? ? [[|t]|] ? ? ? ? ? ? ? ? ? ?]; simpl;
    destruct (f _ _); done.
Qed.

Lemma open_failure_reaches_onError_witness :
  ∃ w', step (mount givesUp) (ResponseArrives 0 notFound) = Some w'
        ∧ readyState (session w') = CLOSED
        ∧ policyCalls (session w')
          = [CalledOnError (JOpenError (openErrorMessage notFound) notFound) 0
               RFalse].
Proof.
  destruct (open_failure_reaches_onError (mount givesUp) 0
              {| ex_input := testURL; ex_headers := ∅; ex_rest := ∅;
                 ex_render := givesUp; ex_aborted := false;
                 ex_phase := Fetching |}
              notFound (λ _ _, RFalse))
    as (w' & Hstep & Hst & Hlog); try (vm_compute; reflexivity).
  exists w'. split; [exact Hstep|]. split; [exact Hst | exact Hlog].
Defined.

(** ** The scenarios of the test suite *)

Lemma onopen_accepts (r : Render) (response : Response) (s : Session) :
  optional onOpen r = None → acceptedByDefault response = true →
  onopen r response s = inr (onopenResume s).
Proof.
  intros Hnone Hacc. unfold onopen. rewrite Hnone, contentTypeMismatch_spec.
  rewrite bool_decide_eq_false_2 by (intros [? ?]; discriminate).
  unfold acceptedByDefault in Hacc. unfold ok. simpl.
  rewrite <- negb_andb. by rewrite Hacc.
Qed.

Lemma response_opens (w : World) (r : Render) (response : Response) (s : Session) :
  session w = _startStream r s →
  optional onOpen r = None → acceptedByDefault response = true →
  ∃ w', step w (ResponseArrives (length (exchanges s)) response) = Some w'
        ∧ session w'
          = setPhase (length (exchanges s)) Streaming (onopenResume (session w))
        ∧ mounted w' = mounted w ∧ current w' = current w.
Proof.
  intros Hs Hnone Hacc. unfold step, live. rewrite Hs.
  rewrite startStream_exchanges, lookup_app_r, Nat.sub_diag by done. simpl.
  rewrite Hnone. unfold settleOnOpen. simpl.
  rewrite onopen_accepts by done. by eexists.
Qed.

Lemma run_cons (w w1 : World) (e : Event) (es : list Event) :
  step w e = Some w1 → run w (e :: es) = run w1 es.
Proof. intros H. simpl. by rewrite H. Qed.

(** X19 (the test "should open"): mounted with [initiallyOpen: false] the
    hook reads CLOSED; after open() and an acceptable response it reads
    OPEN. *)
Theorem test_should_open (r : Render) (response : Response) :
  optional initiallyOpen r = Some false →
  optional onOpen r = None →
  acceptedByDefault response = true →
  ret_readyState (result (session (mount r))) = CLOSED
  ∧ ∃ w, run (mount r) [CallOpen; ResponseArrives 0 response] = Some w
         ∧ ret_readyState (result (session w)) = OPEN.
Proof.
  intros Hinit Hnone Hacc.
  assert (session (mount r) = initial r) as Hm.
  { unfold mount, streamEffect, initial. simpl. by rewrite Hinit. }
  split; [by rewrite Hm|].
  destruct (response_opens
              (with_session (open r (session (mount r))) (mount r)) r response
              (set_explicitlyOpen true (initial r)))
    as (w' & Hstep & Hs & _); try done.
  { cbn [session with_session]. rewrite Hm. by apply open_closed. }
  exists w'. split; [|by rewrite Hs].
  rewrite (run_cons _ (with_session (open r (session (mount r))) (mount r)))
    by done.
  by rewrite (run_cons _ w') by done.
Qed.

Lemma test_should_open_witness :
  ret_readyState (result (session (mount gated))) = CLOSED
  ∧ ∃ w, run (mount gated) [CallOpen; ResponseArrives 0 okResponse] = Some w
         ∧ ret_readyState (result (session w)) = OPEN.
Proof.
  apply test_should_open; vm_compute; reflexivity.
Defined.

Lemma mount_starts (r : Render) :
  optional initiallyOpen r ≠ Some false → openWhenHiddenIsFalse r = false →
  session (mount r) = _startStream r (initial r).
Proof.
  intros Hinit Hvis. unfold mount, streamEffect. cbn [session].
  rewrite Hvis.
  assert (explicitlyOpen (initial r) = true) as ->; [|done].
  unfold initial. cbn [explicitlyOpen].
  destruct (optional initiallyOpen r) as [[]|]; done.
Qed.

(** X20 (the test "should close"): mounted open, the hook reads OPEN once
    an acceptable response is there, and CLOSED as soon as close() returns,
    with the exchange aborted. *)
Theorem test_should_close (r : Render) (response : Response) :
  optional initiallyOpen r ≠ Some false →
  openWhenHiddenIsFalse r = false →
  optional onOpen r = None →
  acceptedByDefault response = true →
  ∃ w w', run (mount r) [ResponseArrives 0 response] = Some w
          ∧ ret_readyState (result (session w)) = OPEN
          ∧ step w CallClose = Some w'
          ∧ ret_readyState (result (session w')) = CLOSED
          ∧ explicitlyOpen (session w') = false
          ∧ (ex_aborted <$> exchanges (session w')) = [true].
Proof.
  intros Hinit Hvis Hnone Hacc.
  destruct (response_opens (mount r) r response (initial r))
    as (w & Hstep & Hs & _); try done.
  { by apply mount_starts. }
  exists w, (with_session (close (session w)) w).
  split; [by rewrite (run_cons _ w) by done|].
  split; [by rewrite Hs|]. split; [done|].
  cbn [session with_session]. rewrite Hs, mount_starts by done.
  unfold close, result. cbn. done.
Qed.

Lemma test_should_close_witness :
  ∃ w w', run (mount (noConfig testURL)) [ResponseArrives 0 okResponse] = Some w
          ∧ ret_readyState (result (session w)) = OPEN
          ∧ step w CallClose = Some w'
          ∧ ret_readyState (result (session w')) = CLOSED
          ∧ explicitlyOpen (session w') = false
          ∧ (ex_aborted <$> exchanges (session w')) = [true].
Proof.
  apply test_should_close; [discriminate | reflexivity | reflexivity |].
  vm_compute; reflexivity.
Defined.

(** X21 (the test on page visibility): with [openWhenHidden: false] an open
    stream is closed when the page is hidden and a second one opens when it
    is visible again. *)
Theorem test_visibility (r : Render) (response : Response) :
  optional initiallyOpen r = Some false →
  optional openWhenHidden r = Some false →
  optional onOpen r = None →
  acceptedByDefault response = true →
  ∃ w1 w2 w3,
    run (mount r) [CallOpen; ResponseArrives 0 response] = Some w1
    ∧ ret_readyState (result (session w1)) = OPEN
    ∧ step w1 (VisibilityChange hiddenState) = Some w2
    ∧ ret_readyState (result (session w2)) = CLOSED
    ∧ run w2 [VisibilityChange visible; ResponseArrives 1 response] = Some w3
    ∧ ret_readyState (result (session w3)) = OPEN
    ∧ (ex_aborted <$> exchanges (session w3)) = [true; false].
Proof.
  intros Hinit Hvis Hnone Hacc.
  assert (openWhenHiddenIsFalse r = true) as Hgate.
  { unfold openWhenHiddenIsFalse. by rewrite Hvis. }
  assert (session (mount r) = initial r) as Hm.
  { unfold mount, streamEffect, initial. simpl. by rewrite Hinit. }
  destruct (response_opens
              (with_session (open r (session (mount r))) (mount r)) r response
              (set_explicitlyOpen true (initial r)))
    as (w1 & Hstep1 & Hs1 & Hm1 & Hc1); try done.
  { cbn [session with_session]. rewrite Hm. by apply open_closed. }
  cbn [session with_session mounted current] in Hs1, Hm1, Hc1.
  rewrite Hm, open_closed in Hs1 by done.
  change (mounted (mount r)) with r in Hm1.
  change (current (mount r)) with r in Hc1.
  set (s2 := onVisibilityChange r hiddenState (session w1)).
  assert (step w1 (VisibilityChange hiddenState)
          = Some (with_session s2 w1)) as Hstep2.
  { unfold step. by rewrite Hc1, Hgate, Hm1. }
  assert (readyState s2 = CLOSED ∧ explicitlyOpen s2 = true
          ∧ (ex_aborted <$> exchanges s2) = [true]
          ∧ length (exchanges s2) = 1) as (Hst2 & Heo2 & Hab2 & Hlen2).
  { unfold s2. rewrite Hs1. cbn. done. }
  set (s3 := open r (set_hidden false s2)).
  assert (step (with_session s2 w1) (VisibilityChange visible)
          = Some (with_session s3 w1)) as Hstep3.
  { unfold step. cbn [session with_session mounted current].
    rewrite Hc1, Hgate, Hm1. unfold onVisibilityChange.
    cbn [hidden set_hidden]. cbn [explicitlyOpen set_hidden]. by rewrite Heo2. }
  destruct (response_opens (with_session s3 w1) r response
              (set_explicitlyOpen true (set_hidden false s2)))
    as (w3 & Hstep4 & Hs3 & _); try done.
  cbn [exchanges set_explicitlyOpen set_hidden] in Hstep4, Hs3.
  rewrite Hlen2 in Hstep4, Hs3.
  exists w1, (with_session s2 w1), w3.
  split.
  { rewrite (run_cons _ (with_session (open r (session (mount r))) (mount r)))
      by done.
    by rewrite (run_cons _ w1) by done. }
  split; [by rewrite Hs1|]. split; [done|]. split; [done|].
  split.
  { rewrite (run_cons _ (with_session s3 w1)) by done.
    by rewrite (run_cons _ w3) by done. }
  split; [by rewrite Hs3|].
  rewrite Hs3. cbn [session with_session]. unfold s3.
  rewrite open_closed by done.
  unfold setPhase, onopenResume. cbn [exchanges set_exchanges set_errorRetries setReadyState].
  rewrite startStream_exchanges. cbn [exchanges set_explicitlyOpen set_hidden].
  destruct (exchanges s2) as [|x [|y l]] eqn:Hx; try done.
  simpl in Hab2. injection Hab2 as Hab2. cbn. by rewrite Hab2.
Qed.

Lemma test_visibility_witness :
  ∃ w1 w2 w3,
    run (mount gated) [CallOpen; ResponseArrives 0 okResponse] = Some w1
    ∧ ret_readyState (result (session w1)) = OPEN
    ∧ step w1 (VisibilityChange hiddenState) = Some w2
    ∧ ret_readyState (result (session w2)) = CLOSED
    ∧ run w2 [VisibilityChange visible; ResponseArrives 1 okResponse] = Some w3
    ∧ ret_readyState (result (session w3)) = OPEN
    ∧ (ex_aborted <$> exchanges (session w3)) = [true; false].
Proof.
  apply test_visibility; vm_compute; reflexivity.
Defined.
